(** * Model-preset resolution (autogluon.tabular.trainer.model_presets.presets)

    A shallow embedding of [presets.py]: Python values, insertion-ordered
    dictionaries, an exception-and-log monad, the registry and the other
    collaborators as an interface, and the functions [_verify_model_cfg],
    [clean_model_cfg], [is_model_cfg_valid], [model_factory],
    [get_preset_models] and [get_preset_models_softclass]. *)

From stdpp Require Import gmap strings list sorting pretty.

#[local] Set Warnings "-register-all,-clear-no-such-hyp".

(** ** Python values *)

(** Hashable values, as they occur as dictionary keys.  [True] and [1] are
    the same key in Python, so booleans are stored as integers. *)
Inductive key :=
| KNone
| KInt (z : Z)
| KStr (s : string)
| KCls (c : nat).

Global Instance key_eq_dec : EqDecision key.
Proof. solve_decision. Defined.

(** Values.  A dictionary is an insertion-ordered association list, a class
    is a handle into the table of model classes. *)
Inductive pyval :=
| VNone
| VBool (b : bool)
| VInt (z : Z)
| VStr (s : string)
| VCls (c : nat)
| VList (l : list pyval)
| VDict (d : list (key * pyval)).

Abbreviation dict := (list (key * pyval)).

Definition to_key (v : pyval) : option key :=
  match v with
  | VNone => Some KNone
  | VBool b => Some (KInt (Z.b2z b))
  | VInt z => Some (KInt z)
  | VStr s => Some (KStr s)
  | VCls c => Some (KCls c)
  | VList _ | VDict _ => None
  end.

Definition of_key (k : key) : pyval :=
  match k with
  | KNone => VNone
  | KInt z => VInt z
  | KStr s => VStr s
  | KCls c => VCls c
  end.

(** ** Dictionaries *)

Section assoc.
Context {V : Type}.

(** [d.get(k)] *)
Fixpoint dict_get (k : key) (d : list (key * V)) : option V :=
  match d with
  | [] => None
  | (k', v) :: d' => if decide (k = k') then Some v else dict_get k d'
  end.

(** [k in d] *)
Definition dict_mem (k : key) (d : list (key * V)) : bool :=
  bool_decide (is_Some (dict_get k d)).

(** [d[k] = v]: an existing key keeps its position, a new one goes last. *)
Fixpoint dict_set (k : key) (v : V) (d : list (key * V)) : list (key * V) :=
  match d with
  | [] => [(k, v)]
  | (k', v') :: d' =>
      if decide (k = k') then (k', v) :: d' else (k', v') :: dict_set k v d'
  end.

(** [d.pop(k, None)] *)
Fixpoint dict_pop (k : key) (d : list (key * V)) : list (key * V) :=
  match d with
  | [] => []
  | (k', v') :: d' =>
      if decide (k = k') then d' else (k', v') :: dict_pop k d'
  end.

(** [d.update(e)] *)
Definition dict_update (d e : list (key * V)) : list (key * V) :=
  foldl (λ acc kv, dict_set kv.1 kv.2 acc) d e.

(** [d.get(k, dflt)] *)
Definition dict_get_default (k : key) (dflt : V) (d : list (key * V)) : V :=
  default dflt (dict_get k d).

Definition dict_keys (d : list (key * V)) : list key := d.*1.
End assoc.

(** ** Equality, truth value, membership *)

(** [a == b] *)
Fixpoint py_eq (a b : pyval) {struct a} : bool :=
  match a, b with
  | VNone, VNone => true
  | VBool x, VBool y => bool_decide (x = y)
  | VBool x, VInt z | VInt z, VBool x => bool_decide (Z.b2z x = z)
  | VInt x, VInt y => bool_decide (x = y)
  | VStr s, VStr t => bool_decide (s = t)
  | VCls c, VCls d => bool_decide (c = d)
  | VList l, VList m =>
      (fix go (l m : list pyval) {struct l} : bool :=
         match l, m with
         | [], [] => true
         | x :: l', y :: m' => py_eq x y && go l' m'
         | _, _ => false
         end) l m
  | VDict d, VDict e =>
      bool_decide (length d = length e) &&
      (fix all (d : dict) {struct d} : bool :=
         match d with
         | [] => true
         | (k, v) :: d' =>
             match dict_get k e with
             | Some w => py_eq v w
             | None => false
             end && all d'
         end) d
  | _, _ => false
  end.

(** [bool(v)] *)
Definition truthy (v : pyval) : bool :=
  match v with
  | VNone => false
  | VBool b => b
  | VInt z => bool_decide (z ≠ 0%Z)
  | VStr s => bool_decide (s ≠ "")
  | VCls _ => true
  | VList l => bool_decide (l ≠ [])
  | VDict d => bool_decide (d ≠ [])
  end.

Definition is_none (v : pyval) : bool :=
  match v with VNone => true | _ => false end.

(** ** Exceptions, log records and the monad of the module *)

Inductive assertion :=
| ModelTypeNotSpecified (model_cfg : dict)
| UnknownModelType (model_type : pyval) (valid_model_types : list key)
| InvalidModelHyperparameters (model_type : key) (value : pyval) (extra_msg : string).

Inductive exn :=
| NotImplementedError
| AssertionError (msg : assertion)
| ValueError (msg : string)
| KeyError (k : pyval)
| IndexError
| TypeError
| AttributeError
| NonTermination.

Inductive log_event :=
| Warning_deprecated (extra_msg : string)
| Warning_unknown_ag_args_key (k : key)
| Warning_custom_model_type (c : nat)
| Info_custom_model_type (c : nat)
| Info_model_configs
| Info_model (name : string) (model_cfg : dict).

Inductive result (A : Type) :=
| Ok (a : A)
| Err (e : exn).
Global Arguments Ok {A} a.
Global Arguments Err {A} e.

(** A computation emits log records and then returns or raises. *)
Definition M (A : Type) : Type := list log_event * result A.

Global Instance M_ret : MRet M := λ A a, ([], Ok a).
Global Instance M_bind : MBind M := λ A B f m,
  match m with
  | (l, Ok a) => let '(l', r) := f a in (l ++ l', r)
  | (l, Err e) => (l, Err e)
  end.

Definition raise {A} (e : exn) : M A := ([], Err e).
Definition log (ev : log_event) : M unit := ([ev], Ok ()).

(** [for x in xs: f x], threading an accumulator. *)
Fixpoint for_each {A S : Type} (f : S → A → M S) (xs : list A) (s : S) : M S :=
  match xs with
  | [] => mret s
  | x :: xs' => s' ← f s x; for_each f xs' s'
  end.

Definition as_dict (v : pyval) : M dict :=
  match v with VDict d => mret d | _ => raise TypeError end.

(** [iter(v)]: the elements of a list, the characters of a string, the keys
    of a dictionary; nothing else is iterable. *)
Definition py_iter (v : pyval) : option (list pyval) :=
  match v with
  | VList l => Some l
  | VStr s => Some ((λ a, VStr (String a "")) <$> String.list_ascii_of_string s)
  | VDict d => Some (of_key <$> d.*1)
  | _ => None
  end.

(** Element [i] of the iterable given to [dict.update]: it has to be an
    iterable of length two whose first component is hashable. *)
Definition update_pair (i : nat) (item : pyval) : M (key * pyval) :=
  match py_iter item with
  | Some [k; v] =>
      match to_key k with
      | Some k => mret (k, v)
      | None => raise TypeError
      end
  | Some elems =>
      raise (ValueError ("dictionary update sequence element #" +:+ pretty i
                         +:+ " has length " +:+ pretty (length elems)
                         +:+ "; 2 is required"))
  | None => raise TypeError
  end.

Fixpoint update_pairs (i : nat) (items : list pyval) : M dict :=
  match items with
  | [] => mret []
  | item :: items' =>
      kv ← update_pair i item;
      rest ← update_pairs (S i) items';
      mret (kv :: rest)
  end.

(** What [d.update(arg)] inserts, in order: the items of a mapping, or the
    pairs of any other iterable; a value that is not iterable is a
    [TypeError]. *)
Definition update_items (arg : pyval) : M dict :=
  match arg with
  | VDict d => mret d
  | _ =>
      match py_iter arg with
      | Some items => update_pairs 0 items
      | None => raise TypeError
      end
  end.

(** [d[k]] *)
Definition dict_getitem (k : key) (d : dict) : M pyval :=
  match dict_get k d with
  | Some v => mret v
  | None => raise (KeyError (of_key k))
  end.

Fixpoint is_substring (sub s : string) : bool :=
  String.prefix sub s ||
  match s with
  | EmptyString => false
  | String _ s' => is_substring sub s'
  end.

(** [x in c] *)
Definition py_contains (x c : pyval) : M bool :=
  match c with
  | VList l => mret (existsb (py_eq x) l)
  | VDict d =>
      match to_key x with
      | Some k => mret (dict_mem k d)
      | None => raise TypeError
      end
  | VStr s =>
      match x with
      | VStr sub => mret (is_substring sub s)
      | _ => raise TypeError
      end
  | _ => raise TypeError
  end.

Definition as_int (v : pyval) : option Z :=
  match v with
  | VInt z => Some z
  | VBool b => Some (Z.b2z b)
  | _ => None
  end.

(** [a + b] *)
Definition py_add (a b : pyval) : M pyval :=
  match a, b with
  | VStr s, VStr t => mret (VStr (s +:+ t))
  | VList l, VList m => mret (VList (l ++ m))
  | _, _ =>
      match as_int a, as_int b with
      | Some x, Some y => mret (VInt (x + y))
      | _, _ => raise TypeError
      end
  end.

(** ** Constants *)

(** Modelled from the spec: the names of the reserved sub-mappings and the
    five problem kinds are constants of [autogluon.core.constants], which is
    not under src/; lines 160 and 358 of presets.py spell two of them out. *)
Definition AG_ARGS : key := KStr "ag_args".
Definition AG_ARGS_ENSEMBLE : key := KStr "ag_args_ensemble".
Definition AG_ARGS_FIT : key := KStr "ag_args_fit".
Definition BINARY : pyval := VStr "binary".
Definition MULTICLASS : pyval := VStr "multiclass".
Definition REGRESSION : pyval := VStr "regression".
Definition SOFTCLASS : pyval := VStr "softclass".
Definition QUANTILE : pyval := VStr "quantile".

Definition DEFAULT_CUSTOM_MODEL_PRIORITY : pyval := VInt 0.

Definition VALID_AG_ARGS_KEYS : list key :=
  [ KStr "name"; KStr "name_main"; KStr "name_prefix"; KStr "name_suffix";
    KStr "name_bag_suffix"; KStr "model_type"; KStr "priority";
    KStr "problem_types"; KStr "disable_in_hpo"; KStr "valid_stacker";
    KStr "valid_base"; KStr "hyperparameter_tune_kwargs" ].

Definition newline : string := String (Ascii.ascii_of_nat 10) "".

(** ** Collaborators *)

(** What the module reads of a model class. *)
Record model_class := {
  cls_name : string;                                 (* [__name__] *)
  cls_ag_name : option string;                       (* [ag_name] *)
  cls_is_abstract_model : bool;                      (* [issubclass(_, AbstractModel)] *)
  cls_default_ag_args : option dict;                 (* [_get_default_ag_args()] *)
  cls_default_ag_args_ensemble : pyval → option dict (* [_get_default_ag_args_ensemble(problem_type)] *)
}.

(** The registry, the helpers imported from other packages, the running
    version and Python's [str] of compound values: all of them live outside
    presets.py and are taken as an interface.  [process_hyperparameters]
    is a computation of the monad: it may log and it may raise. *)
Class Collaborators := {
  class_table : nat → model_class;
  key_to_cls_map : list (key * nat);
  key_to_cls : pyval → result nat;
  registry_exists : nat → bool;
  registry_key : nat → key;
  priority_map : pyval → list (nat * pyval);
  process_hyperparameters : dict → M dict;
  filter_models : pyval → option (list pyval) → option (list pyval) → pyval;
  ag_version : string;
  version_ge : string → string → bool;
  get_deprecated_lightgbm_large_hyperparameters : dict;
  get_hyperparameter_str_deprecation_msg : string;
  soft_log_loss : pyval;
  StackerEnsembleModel : nat;
  py_repr : pyval → string
}.

Section presets.
Context `{Collaborators}.

(** ** [_verify_model_cfg] (lines 219-244) *)

Definition _verify_model_cfg (model_cfg : pyval) (model_type : key) : M dict :=
  match model_cfg with
  | VDict d => mret d
  | _ =>
      if match model_cfg with
         | VStr s => bool_decide (s = "GBMLarge")
         | _ => false
         end then
        let extra_msg := get_hyperparameter_str_deprecation_msg in
        if version_ge ag_version "1.3.0" then
          raise (AssertionError
                   (InvalidModelHyperparameters model_type model_cfg (newline +:+ extra_msg)))
        else
          _ ← log (Warning_deprecated extra_msg);
          mret get_deprecated_lightgbm_large_hyperparameters
      else
        raise (AssertionError (InvalidModelHyperparameters model_type model_cfg ""))
  end.

(** ** [clean_model_cfg] (lines 168-216) *)

(** Lines 177-190: a registry key is looked up, a class is kept (with a
    warning when it does not extend [AbstractModel], a note when it is not
    registered). *)
Definition resolve_model_type (model_type : pyval) : M nat :=
  match model_type with
  | VCls c =>
      _ ← (if negb (cls_is_abstract_model (class_table c))
           then log (Warning_custom_model_type c)
           else if negb (registry_exists c)
                then log (Info_custom_model_type c)
                else mret ());
      mret c
  | _ =>
      match to_key model_type with
      | None => raise TypeError
      | Some k =>
          match dict_get k key_to_cls_map with
          | None =>
              raise (AssertionError
                       (UnknownModelType model_type (dict_keys key_to_cls_map)))
          | Some c => mret c
          end
      end
  end.

(** Lines 195-198, 200-203 and 204-209: a copy of the caller's bundle,
    updated with the variant's own. *)
Definition merge_extra (extra : option dict) (own : dict) : dict :=
  match extra with
  | Some g => dict_update g own
  | None => own
  end.

Definition clean_model_cfg (model_cfg : pyval) (model_type : key)
    (ag_args ag_args_ensemble ag_args_fit : option dict)
    (problem_type : pyval) : M dict :=
  model_cfg ← _verify_model_cfg model_cfg model_type;
  let model_cfg :=
    if dict_mem AG_ARGS model_cfg then model_cfg
    else dict_set AG_ARGS (VDict []) model_cfg in
  ag ← dict_getitem AG_ARGS model_cfg ≫= as_dict;
  let ag :=
    if dict_mem (KStr "model_type") ag then ag
    else dict_set (KStr "model_type") (of_key model_type) ag in
  let model_cfg := dict_set AG_ARGS (VDict ag) model_cfg in
  model_type ← dict_getitem (KStr "model_type") ag;
  if is_none model_type then
    raise (AssertionError (ModelTypeNotSpecified model_cfg))
  else
    model_type_real ← resolve_model_type model_type;
    let ag := dict_set (KStr "model_type") (VCls model_type_real) ag in
    let model_cfg := dict_set AG_ARGS (VDict ag) model_cfg in
    let default_ag_args := cls_default_ag_args (class_table model_type_real) in
    let ag := merge_extra ag_args ag in
    let model_cfg := dict_set AG_ARGS (VDict ag) model_cfg in
    let default_ag_args_ensemble :=
      cls_default_ag_args_ensemble (class_table model_type_real) problem_type in
    model_cfg ←
      match ag_args_ensemble with
      | Some g =>
          own ← update_items (dict_get_default AG_ARGS_ENSEMBLE (VDict []) model_cfg);
          mret (dict_set AG_ARGS_ENSEMBLE (VDict (dict_update g own)) model_cfg)
      | None => mret model_cfg
      end;
    model_cfg ←
      match ag_args_fit with
      | Some g =>
          let model_cfg :=
            if dict_mem AG_ARGS_FIT model_cfg then model_cfg
            else dict_set AG_ARGS_FIT (VDict []) model_cfg in
          own ← dict_getitem AG_ARGS_FIT model_cfg ≫= update_items;
          mret (dict_set AG_ARGS_FIT (VDict (dict_update g own)) model_cfg)
      | None => mret model_cfg
      end;
    ag ← dict_getitem AG_ARGS model_cfg ≫= as_dict;
    let model_cfg :=
      match default_ag_args with
      | Some dflt => dict_set AG_ARGS (VDict (dict_update dflt ag)) model_cfg
      | None => model_cfg
      end in
    match default_ag_args_ensemble with
    | Some dflt =>
        own ← update_items (dict_get_default AG_ARGS_ENSEMBLE (VDict []) model_cfg);
        mret (dict_set AG_ARGS_ENSEMBLE (VDict (dict_update dflt own)) model_cfg)
    | None => mret model_cfg
    end.

(** ** [is_model_cfg_valid] (lines 248-265) *)

Definition warn_unknown_keys (ag : dict) : M unit :=
  for_each (λ _ k,
              if bool_decide (k ∈ VALID_AG_ARGS_KEYS) then mret ()
              else log (Warning_unknown_ag_args_key k))
           (dict_keys ag) ().

(** Lines 255-264, once [AG_ARGS] is known to be present. *)
Definition validity_chain (ag : dict) (level : Z) (problem_type : pyval)
    : M bool :=
  if is_none (dict_get_default (KStr "model_type") VNone ag) then
    mret false
  else if truthy (dict_get_default (KStr "hyperparameter_tune_kwargs") VNone ag)
          && truthy (dict_get_default (KStr "disable_in_hpo") (VBool false) ag) then
    mret false
  else if negb (truthy (dict_get_default (KStr "valid_stacker") (VBool true) ag))
          && bool_decide (1 < level)%Z then
    mret false
  else if negb (truthy (dict_get_default (KStr "valid_base") (VBool true) ag))
          && bool_decide (level = 1)%Z then
    mret false
  else if is_none problem_type then
    mret true
  else
    py_contains problem_type
      (dict_get_default (KStr "problem_types") (VList [problem_type]) ag).

(** Lines 250-252 on an [ag_args] value that is not a mapping: the loop
    runs over its elements, and membership in the set of valid keys hashes
    each of them. *)
Definition warn_unknown_elements (elements : list pyval) : M unit :=
  for_each (λ _ v,
              match to_key v with
              | Some k =>
                  if bool_decide (k ∈ VALID_AG_ARGS_KEYS) then mret ()
                  else log (Warning_unknown_ag_args_key k)
              | None => raise TypeError
              end)
           elements ().

Definition is_model_cfg_valid (model_cfg : dict) (level : Z)
    (problem_type : pyval) : M bool :=
  match dict_get AG_ARGS model_cfg with
  | None => mret false
  | Some (VDict ag) =>
      _ ← warn_unknown_keys ag;
      validity_chain ag level problem_type
  | Some v =>
      match py_iter v with
      | Some elements =>
          _ ← warn_unknown_elements elements;
          raise AttributeError
      | None => raise TypeError
      end
  end.

(** ** [model_factory] (lines 268-342) *)

(** [f"{v}"] *)
Definition fmt (v : pyval) : string :=
  match v with
  | VStr s => s
  | VInt z => pretty z
  | VBool true => "True"
  | VBool false => "False"
  | VNone => "None"
  | _ => py_repr v
  end.

(** Line 300: [f"{name_orig}_{num_increment}{name_suffix}"] *)
Definition numbered_name (name_orig : pyval) (name_suffix : string)
    (num_increment : Z) : string :=
  fmt name_orig +:+ "_" +:+ pretty num_increment +:+ name_suffix.

(** Lines 305 and 308: [f"{name}{name_bag_suffix}_L{level}{name_suffix}"] *)
Definition stacker_name (name name_bag_suffix : pyval) (level : Z)
    (name_suffix : string) : string :=
  fmt name +:+ fmt name_bag_suffix +:+ "_L" +:+ pretty level +:+ name_suffix.

(** Line 307 and 308: the name and the stacker name of one counter value. *)
Definition numbered_stacker (name_orig name_bag_suffix : pyval) (level : Z)
    (name_suffix : string) (num_increment : Z) : pyval * string :=
  let name := VStr (fmt name_orig +:+ "_" +:+ pretty num_increment) in
  (name, stacker_name name name_bag_suffix level name_suffix).

(** The loops of lines 299-301 and 306-309: while the tested name is in
    use, take the candidate of the counter and increment the counter.  The
    recursion is on [fuel]; running out of it is reported as
    [NonTermination]. *)
Fixpoint while_in_use {A : Type} (fuel : nat) (tested : A → string)
    (candidate : Z → A) (invalid_name_set : gset string)
    (current : A) (num_increment : Z) : M A :=
  if bool_decide (tested current ∈ invalid_name_set) then
    match fuel with
    | O => raise NonTermination
    | S fuel' =>
        while_in_use fuel' tested candidate invalid_name_set
          (candidate num_increment) (num_increment + 1)%Z
    end
  else mret current.

(** Lines 293-309.  The result is the [name] and the [name_stacker]. *)
Definition allocate_name (ag : dict) (name_orig : pyval)
    (name_suffix : option string) (ensembled : bool)
    (invalid_name_set : gset string) (level : Z) : M (pyval * option string) :=
  let num_increment := 2%Z in
  let name_suffix := default "" name_suffix in
  let fuel := S (size invalid_name_set) in
  if ensembled then
    let name_bag_suffix :=
      dict_get_default (KStr "name_bag_suffix") (VStr "_BAG") ag in
    r ← while_in_use fuel snd
          (numbered_stacker name_orig name_bag_suffix level name_suffix)
          invalid_name_set
          (name_orig, stacker_name name_orig name_bag_suffix level name_suffix)
          num_increment;
    mret (r.1, Some r.2)
  else
    name ← while_in_use fuel id
             (numbered_name name_orig name_suffix) invalid_name_set
             (fmt name_orig +:+ name_suffix) num_increment;
    mret (VStr name, None).

(** Modelled from the spec: the constructors of the model classes and of
    the ensemble wrapper are not under src/.  A constructed object is the
    class that was instantiated together with the keyword arguments it
    received; its [name] is the [name] argument, and
    [normalize_pred_probas] is [None] until this module assigns it. *)
Record model := {
  model_cls : nat;
  name : string;
  init_kwargs : dict;
  normalize_pred_probas : option bool
}.

(** [key.split(prefix, 1)[-1]] for a key that starts with the prefix. *)
Fixpoint strip_prefix (prefix s : string) : option string :=
  match prefix, s with
  | EmptyString, _ => Some s
  | String a p, String b s' => if decide (a = b) then strip_prefix p s' else None
  | String _ _, EmptyString => None
  end.

(** Lines 319-322. *)
Definition route_ensemble_keys (model_params : dict) (extra : pyval)
    : M (dict * pyval) :=
  for_each (λ '(model_params, extra) key,
    match key with
    | KStr s =>
        match strip_prefix "ag.ens." s with
        | Some key_suffix =>
            v ← dict_getitem key model_params;
            extra ← as_dict extra;
            mret (dict_pop key model_params,
                  VDict (dict_set (KStr key_suffix) v extra))
        | None => mret (model_params, extra)
        end
    | _ => raise AttributeError
    end) (dict_keys model_params) (model_params, extra).

Definition model_factory (model_ : dict) (path problem_type eval_metric : pyval)
    (name_suffix : option string) (ensemble_type : nat)
    (ensemble_kwargs : option dict) (invalid_name_set : gset string)
    (level : Z) : M model :=
  ag ← dict_getitem AG_ARGS model_ ≫= as_dict;
  model_type ← dict_getitem (KStr "model_type") ag;
  model_type ←
    match model_type with
    | VCls c => mret c
    | _ => match key_to_cls model_type with
           | Ok c => mret c
           | Err e => raise e
           end
    end;
  name_orig ←
    (let name_orig := dict_get_default (KStr "name") VNone ag in
     if is_none name_orig then
       let ag_name :=
         default (cls_name (class_table model_type))
                 (cls_ag_name (class_table model_type)) in
       let name_main := dict_get_default (KStr "name_main") (VStr ag_name) ag in
       let name_prefix := dict_get_default (KStr "name_prefix") (VStr "") ag in
       let name_suff := dict_get_default (KStr "name_suffix") (VStr "") ag in
       py_add name_prefix name_main ≫= λ s, py_add s name_suff
     else mret name_orig);
  '(name_, name_stacker) ←
    allocate_name ag name_orig name_suffix
      (bool_decide (is_Some ensemble_kwargs)) invalid_name_set level;
  let model_params := dict_pop AG_ARGS_ENSEMBLE (dict_pop AG_ARGS model_) in
  let extra_ensemble_hyperparameters :=
    dict_get_default AG_ARGS_ENSEMBLE (VDict []) model_ in
  '(model_params, extra_ensemble_hyperparameters) ←
    route_ensemble_keys model_params extra_ensemble_hyperparameters;
  let model_init_kwargs :=
    [ (KStr "path", path); (KStr "name", name_);
      (KStr "problem_type", problem_type); (KStr "eval_metric", eval_metric);
      (KStr "hyperparameters", VDict model_params) ] in
  match ensemble_kwargs, name_stacker with
  | Some ensemble_kwargs, Some name_stacker =>
      let hp := dict_get_default (KStr "hyperparameters") (VDict []) ensemble_kwargs in
      let hp := if is_none hp then VDict [] else hp in
      hp ← match hp with VDict d => mret d | _ => raise AttributeError end;
      extra ← update_items extra_ensemble_hyperparameters;
      let ensemble_kwargs_model :=
        dict_set (KStr "hyperparameters") (VDict (dict_update hp extra))
                 ensemble_kwargs in
      let fixed :=
        [ (KStr "path", path); (KStr "name", VStr name_stacker);
          (KStr "model_base", VCls model_type);
          (KStr "model_base_kwargs", VDict model_init_kwargs) ] in
      if forallb (λ k, match k with KStr _ => negb (dict_mem k fixed) | _ => false end)
                 (dict_keys ensemble_kwargs_model)
      then mret {| model_cls := ensemble_type; name := name_stacker;
                   init_kwargs := fixed ++ ensemble_kwargs_model;
                   normalize_pred_probas := None |}
      else raise TypeError
  | _, _ =>
      mret {| model_cls := model_type; name := fmt name_;
              init_kwargs := model_init_kwargs;
              normalize_pred_probas := None |}
  end.

(** ** [get_preset_models] (lines 70-165) *)

(** The keyword arguments of [get_preset_models] that
    [get_preset_models_softclass] passes through unchanged. *)
Record preset_kwargs := {
  kw_path : pyval;
  kw_level : Z;
  kw_ensemble_type : nat;
  kw_ensemble_kwargs : option dict;
  kw_ag_args_fit : option dict;
  kw_ag_args : option dict;
  kw_ag_args_ensemble : option dict;
  kw_name_suffix : option string;
  kw_default_priorities : option dict;
  kw_included_model_types : option (list pyval);
  kw_excluded_model_types : option (list pyval);
  kw_hyperparameter_preprocess_func : option (dict → dict → M dict);
  kw_hyperparameter_preprocess_kwargs : option dict;
  kw_silent : bool
}.

(** Lines 101-105. *)
Definition resolve_default_priorities (default_priorities : option dict)
    (problem_type : pyval) : dict :=
  match default_priorities with
  | Some d => d
  | None =>
      foldl (λ acc cp, dict_set (registry_key cp.1) cp.2 acc) []
            (priority_map problem_type)
  end.

(** Lines 107-110. *)
Definition select_level (level : Z) (hyperparameters : dict) : M pyval :=
  let level_key :=
    if dict_mem (KInt level) hyperparameters then KInt level
    else KStr "default" in
  let hyperparameters :=
    if negb (dict_mem level_key hyperparameters)
       && bool_decide (level_key = KStr "default")
    then [(KStr "default", VDict hyperparameters)]
    else hyperparameters in
  dict_getitem level_key hyperparameters.

(** [model_cfg_priority_dict[p].append(model_cfg)] on a [defaultdict(list)]. *)
Definition bucket_append (p : key) (model_cfg : dict)
    (buckets : list (key * list dict)) : list (key * list dict) :=
  dict_set p (default [] (dict_get p buckets) ++ [model_cfg]) buckets.

(** Lines 122-137: one variant of one model type. *)
Definition add_candidate (kw : preset_kwargs) (problem_type : pyval)
    (default_priorities : dict) (model_type : key)
    (buckets : list (key * list dict)) (model_cfg : pyval)
    : M (list (key * list dict)) :=
  model_cfg ← clean_model_cfg model_cfg model_type (kw_ag_args kw)
                (kw_ag_args_ensemble kw) (kw_ag_args_fit kw) problem_type;
  ag ← dict_getitem AG_ARGS model_cfg ≫= as_dict;
  let model_priority :=
    dict_get_default (KStr "priority")
      (dict_get_default model_type DEFAULT_CUSTOM_MODEL_PRIORITY default_priorities)
      ag in
  let model_cfg :=
    dict_set AG_ARGS (VDict (dict_set (KStr "priority") model_priority ag))
             model_cfg in
  is_model_cfg_valid model_cfg (kw_level kw) problem_type ≫= λ is_valid : bool,
  let model_cfg :=
    match dict_get AG_ARGS_FIT model_cfg with
    | Some v => if truthy v then model_cfg else dict_pop AG_ARGS_FIT model_cfg
    | None => model_cfg
    end in
  if is_valid then
    match to_key model_priority with
    | Some p => mret (bucket_append p model_cfg buckets)
    | None => raise TypeError
    end
  else mret buckets.

(** Lines 115-137: the variants of one model type; a bare variant stands
    for the one-element list of it. *)
Definition add_model_type (kw : preset_kwargs) (problem_type : pyval)
    (default_priorities : dict) (hp_level : dict)
    (buckets : list (key * list dict)) (model_type : key)
    : M (list (key * list dict)) :=
  models_of_type ← dict_getitem model_type hp_level;
  let models_of_type :=
    match models_of_type with
    | VList l => l
    | v => [v]
    end in
  for_each (add_candidate kw problem_type default_priorities model_type)
           models_of_type buckets.

Definition key_int (k : key) : option Z :=
  match k with KInt z => Some z | _ => None end.
Definition key_str (k : key) : option string :=
  match k with KStr s => Some s | _ => None end.

(** [sorted(keys, reverse=True)] on the keys of a dictionary: integers and
    strings are ordered among themselves, a single key needs no comparison,
    anything else cannot be compared. *)
Definition sorted_reverse (keys : list key) : M (list key) :=
  match mapM key_int keys with
  | Some zs => mret (KInt <$> merge_sort Z.ge zs)
  | None =>
      match mapM key_str keys with
      | Some ss => mret (KStr <$> merge_sort (flip String.le) ss)
      | None =>
          if bool_decide (length keys ≤ 1) then mret keys else raise TypeError
      end
  end.

(** Line 139. *)
Definition model_cfg_priority_list (buckets : list (key * list dict))
    : M (list dict) :=
  priorities ← sorted_reverse (dict_keys buckets);
  mret (concat ((λ p, default [] (dict_get p buckets)) <$> priorities)).

(** Lines 146-164: one model of the ordered list. *)
Definition instantiate (kw : preset_kwargs) (problem_type eval_metric : pyval)
    (acc : list model * dict * gset string) (model_cfg : dict)
    : M (list model * dict * gset string) :=
  let '(models, model_args_fit, invalid_name_set) := acc in
  model_ ← model_factory model_cfg (kw_path kw) problem_type eval_metric
             (kw_name_suffix kw) (kw_ensemble_type kw) (kw_ensemble_kwargs kw)
             invalid_name_set (kw_level kw);
  let invalid_name_set := {[ name model_ ]} ∪ invalid_name_set in
  ag ← dict_getitem AG_ARGS model_cfg ≫= as_dict;
  let model_args_fit :=
    match dict_get (KStr "hyperparameter_tune_kwargs") ag with
    | Some v =>
        dict_set (KStr (name model_))
                 (VDict [(KStr "hyperparameter_tune_kwargs", v)]) model_args_fit
    | None => model_args_fit
    end in
  let model_cfg :=
    match dict_get (KStr "ag_args_ensemble") model_cfg with
    | Some v => if truthy v then model_cfg
                else dict_pop (KStr "ag_args_ensemble") model_cfg
    | None => model_cfg
    end in
  _ ← (if kw_silent kw then mret () else log (Info_model (name model_) model_cfg));
  mret (models ++ [model_], model_args_fit, invalid_name_set).

(** Lines 90-94: the two preprocessing steps, either of which may raise. *)
Definition preprocessed (kw : preset_kwargs) (hyperparameters : dict) : M dict :=
  hyperparameters ← process_hyperparameters hyperparameters;
  match kw_hyperparameter_preprocess_func kw with
  | Some f => f hyperparameters (default [] (kw_hyperparameter_preprocess_kwargs kw))
  | None => mret hyperparameters
  end.

Definition get_preset_models (problem_type eval_metric : pyval)
    (hyperparameters : dict) (invalid_model_names : option (list string))
    (kw : preset_kwargs) : M (list model * dict) :=
  hyperparameters ← preprocessed kw hyperparameters;
  if negb (existsb (py_eq problem_type)
                   [BINARY; MULTICLASS; REGRESSION; SOFTCLASS; QUANTILE]) then
    raise NotImplementedError
  else
    let invalid_name_set : gset string :=
      list_to_set (default [] invalid_model_names) in
    let default_priorities :=
      resolve_default_priorities (kw_default_priorities kw) problem_type in
    hp_level ← select_level (kw_level kw) hyperparameters;
    let hp_level :=
      filter_models hp_level (kw_included_model_types kw)
                    (kw_excluded_model_types kw) in
    hp_level ← match hp_level with
               | VDict d => mret d
               | _ => raise AttributeError
               end;
    buckets ← for_each (add_model_type kw problem_type default_priorities hp_level)
                (dict_keys hp_level) [];
    model_cfg_priority_list ← model_cfg_priority_list buckets;
    _ ← (if kw_silent kw then mret () else log Info_model_configs);
    '(models, model_args_fit, _) ←
      for_each (instantiate kw problem_type eval_metric)
               model_cfg_priority_list ([], [], invalid_name_set);
    mret (models, model_args_fit).

(** ** [get_preset_models_softclass] (lines 346-378) *)

(** [len(v)] *)
Definition py_len (v : pyval) : M nat :=
  match v with
  | VList l => mret (length l)
  | VDict d => mret (length d)
  | VStr s => mret (String.length s)
  | _ => raise TypeError
  end.

(** Line 360: [rf_params[i].update(rf_newparams)], in place. *)
Definition update_at (rf_params : pyval) (rf_newparams : dict) (i : nat)
    : M pyval :=
  match rf_params with
  | VList l =>
      match l !! i with
      | Some (VDict d) => mret (VList (<[i := VDict (dict_update d rf_newparams)]> l))
      | Some _ => raise AttributeError
      | None => raise IndexError
      end
  | VDict e =>
      match dict_get (KInt (Z.of_nat i)) e with
      | Some (VDict d) =>
          mret (VDict (dict_set (KInt (Z.of_nat i))
                                (VDict (dict_update d rf_newparams)) e))
      | Some _ => raise AttributeError
      | None => raise (KeyError (VInt (Z.of_nat i)))
      end
  | VStr s =>
      if bool_decide (i < String.length s) then raise AttributeError
      else raise IndexError
  | _ => raise TypeError
  end.

(** Line 361 on a list: an element is kept when no later element equals it. *)
Fixpoint drop_repeated (l : list pyval) : list pyval :=
  match l with
  | [] => []
  | j :: rest =>
      if existsb (py_eq j) rest then drop_repeated rest
      else j :: drop_repeated rest
  end.

(** Line 361.  Nothing is enumerated in an empty mapping or string; a
    non-empty mapping cannot be sliced. *)
Definition remove_duplicates (rf_params : pyval) : M (list pyval) :=
  match rf_params with
  | VList l => mret (drop_repeated l)
  | VDict [] | VStr EmptyString => mret []
  | _ => raise TypeError
  end.

Definition model_types_standard : list key :=
  [KStr "GBM"; KStr "NN_TORCH"; KStr "CAT"; KStr "ENS_WEIGHTED"].

Definition set_normalize_pred_probas (b : bool) (m : model) : model :=
  {| model_cls := model_cls m; name := name m; init_kwargs := init_kwargs m;
     normalize_pred_probas := Some b |}.

Definition softclass_no_models : string :=
  "At least one of the following model-types must be present in hyperparameters: ['GBM','CAT','RF'], These are the only supported models for softclass prediction problems. Softclass problems are also not yet supported for fit() with per-stack level hyperparameters.".

Definition get_preset_models_softclass (hyperparameters : dict)
    (invalid_model_names : option (list string)) (kw : preset_kwargs)
    : M (list model * dict) :=
  let hyperparameters_standard :=
    List.filter (λ kv, bool_decide (kv.1 ∈ model_types_standard)) hyperparameters in
  let hyperparameters_rf :=
    List.filter (λ kv, bool_decide (kv.1 = KStr "RF")) hyperparameters in
  hyperparameters_standard ←
    match dict_get (KStr "RF") hyperparameters_rf with
    | Some rf_params =>
        let rf_newparams :=
          [ (KStr "criterion", VStr "squared_error");
            (KStr "ag_args", VDict [(KStr "name_suffix", VStr "MSE")]) ] in
        n ← py_len rf_params;
        rf_params ← for_each (λ rf_params i, update_at rf_params rf_newparams i)
                      (seq 0 n) rf_params;
        rf_params ← remove_duplicates rf_params;
        mret (dict_set (KStr "RF") (VList rf_params) hyperparameters_standard)
    | None => mret hyperparameters_standard
    end;
  '(models, model_args_fit) ←
    get_preset_models SOFTCLASS soft_log_loss hyperparameters_standard
                      invalid_model_names kw;
  if bool_decide (length models = 0) then
    raise (ValueError softclass_no_models)
  else
    mret (set_normalize_pred_probas true <$> models, model_args_fit).

End presets.

(** ** A concrete registry

    Three registered model classes and the ensemble wrapper, used to run the
    functions on explicit inputs. *)

Definition example_class (c : nat) : model_class :=
  match c with
  | 0 => {| cls_name := "LGBModel"; cls_ag_name := Some "LightGBM";
            cls_is_abstract_model := true; cls_default_ag_args := Some [];
            cls_default_ag_args_ensemble := λ _, Some [] |}
  | 1 => {| cls_name := "RFModel"; cls_ag_name := Some "RandomForest";
            cls_is_abstract_model := true; cls_default_ag_args := Some [];
            cls_default_ag_args_ensemble := λ _, Some [(KStr "use_child_oof", VBool true)] |}
  | 2 => {| cls_name := "LayeredModel"; cls_ag_name := None;
            cls_is_abstract_model := true;
            cls_default_ag_args := Some [(KStr "a", VInt 1); (KStr "b", VInt 2)];
            cls_default_ag_args_ensemble := λ _, None |}
  | _ => {| cls_name := "StackerEnsembleModel"; cls_ag_name := None;
            cls_is_abstract_model := true; cls_default_ag_args := Some [];
            cls_default_ag_args_ensemble := λ _, Some [] |}
  end.

Definition example_key_to_cls_map : list (key * nat) :=
  [(KStr "GBM", 0); (KStr "RF", 1); (KStr "LAYERED", 2)].

(** Modelled from the spec: [process_hyperparameters] is a helper of
    [autogluon.core.trainer.utils], which is not under src/; the spec only
    says that the hyperparameters are brought to a standard form before the
    candidates are read.  The example follows the helper of that name: a
    mapping without any level key (an integer or ["default"]) is wrapped
    under ["default"], and in every level each model type's value that is
    not a list becomes the one-element list of it.  A level whose value is
    not a mapping has no [keys()]. *)
Definition example_process_hyperparameters (hyperparameters : dict) : M dict :=
  let has_levels :=
    existsb (λ k, match k with
                  | KInt _ => true
                  | KStr s => bool_decide (s = "default")
                  | _ => false
                  end) (dict_keys hyperparameters) in
  let hyperparameters :=
    if has_levels then hyperparameters
    else [(KStr "default", VDict hyperparameters)] in
  for_each (λ hyperparameters key_,
              models ← dict_getitem key_ hyperparameters;
              match models with
              | VDict models =>
                  mret (dict_set key_
                          (VDict ((λ kv, (kv.1, match kv.2 with
                                                | VList l => VList l
                                                | v => VList [v]
                                                end)) <$> models))
                          hyperparameters)
              | _ => raise AttributeError
              end)
           (dict_keys hyperparameters) hyperparameters.

Definition example_registry (running_version : string) : Collaborators := {|
  class_table := example_class;
  key_to_cls_map := example_key_to_cls_map;
  key_to_cls := λ v,
    match to_key v ≫= λ k, dict_get k example_key_to_cls_map with
    | Some c => Ok c
    | None => Err (KeyError v)
    end;
  registry_exists := λ c, bool_decide (c < 3);
  registry_key := λ c,
    match c with 0 => KStr "GBM" | 1 => KStr "RF" | 2 => KStr "LAYERED" | _ => KNone end;
  priority_map := λ _, [(0, VInt 90); (1, VInt 80)];
  process_hyperparameters := example_process_hyperparameters;
  filter_models := λ models _ _, models;
  ag_version := running_version;
  version_ge := λ a b, String.leb b a;
  get_deprecated_lightgbm_large_hyperparameters :=
    [(KStr "learning_rate", VStr "0.03"); (KStr "num_leaves", VInt 128)];
  get_hyperparameter_str_deprecation_msg := "GBMLarge is deprecated";
  soft_log_loss := VStr "soft_log_loss";
  StackerEnsembleModel := 3;
  py_repr := λ _, "<object>"
|}.

Definition example_kwargs : preset_kwargs := {|
  kw_path := VStr "models/"; kw_level := 1; kw_ensemble_type := 3;
  kw_ensemble_kwargs := None; kw_ag_args_fit := None; kw_ag_args := None;
  kw_ag_args_ensemble := None; kw_name_suffix := None;
  kw_default_priorities := None; kw_included_model_types := None;
  kw_excluded_model_types := None; kw_hyperparameter_preprocess_func := None;
  kw_hyperparameter_preprocess_kwargs := None; kw_silent := true
|}.

(** * Properties *)

(** ** The monad *)

Lemma bind_Ok {A B} (m : M A) (f : A → M B) l b :
  m ≫= f = (l, Ok b) →
  ∃ l1 a l2, m = (l1, Ok a) ∧ f a = (l2, Ok b) ∧ l = l1 ++ l2.
Proof.
  unfold mbind, M_bind. destruct m as [l1 [a|e]]; [|done].
  destruct (f a) as [l2 r] eqn:Hf. intros [= <- ->]. eauto 7.
Qed.

Lemma bind_ret {A B} (a : A) (f : A → M B) : mret a ≫= f = f a.
Proof. unfold mbind, M_bind, mret, M_ret. by destruct (f a). Qed.

Lemma bind_step {A B} (m : M A) (f : A → M B) l1 a l2 r :
  m = (l1, Ok a) → f a = (l2, r) → m ≫= f = (l1 ++ l2, r).
Proof. intros -> Hf. unfold mbind, M_bind. by rewrite Hf. Qed.

Lemma bind_Err {A B} (m : M A) (f : A → M B) l e :
  m = (l, Err e) → m ≫= f = (l, Err e).
Proof. by intros ->. Qed.

Lemma bind_eq {A B} (m : M A) (f : A → M B) l a :
  m = (l, Ok a) → m ≫= f = (l ++ (f a).1, (f a).2).
Proof. intros ->. unfold mbind, M_bind. by destruct (f a). Qed.

(** ** Dictionaries *)

Section assoc_facts.
Context {V : Type}.
Implicit Types (d : list (key * V)) (k : key) (v : V).

Lemma dict_get_set_eq k v d : dict_get k (dict_set k v d) = Some v.
Proof.
  induction d as [|[k' v'] d IH]; simpl.
  - by rewrite decide_True.
  - destruct (decide (k = k')) as [->|Hne]; simpl.
    + by rewrite decide_True.
    + by rewrite decide_False.
Qed.

Lemma dict_get_set_ne k k' v d :
  k ≠ k' → dict_get k (dict_set k' v d) = dict_get k d.
Proof.
  intros Hne. induction d as [|[k'' v''] d IH]; simpl.
  - by rewrite decide_False.
  - destruct (decide (k' = k'')) as [->|Hne']; simpl.
    + by rewrite !decide_False.
    + destruct (decide (k = k'')); [done|apply IH].
Qed.

Lemma dict_get_set k k' v d :
  dict_get k (dict_set k' v d) = if decide (k = k') then Some v else dict_get k d.
Proof.
  destruct (decide (k = k')) as [->|?];
    [apply dict_get_set_eq|by apply dict_get_set_ne].
Qed.

Lemma dict_get_pop_ne k k' d :
  k ≠ k' → dict_get k (dict_pop k' d) = dict_get k d.
Proof.
  intros Hne. induction d as [|[k'' v''] d IH]; simpl; [done|].
  destruct (decide (k' = k'')) as [->|Hne']; simpl.
  - by rewrite decide_False.
  - destruct (decide (k = k'')); [done|apply IH].
Qed.

Lemma dict_mem_true k d : dict_mem k d = true ↔ is_Some (dict_get k d).
Proof. unfold dict_mem. by rewrite bool_decide_eq_true. Qed.

Lemma dict_mem_false k d : dict_mem k d = false ↔ dict_get k d = None.
Proof.
  unfold dict_mem. rewrite bool_decide_eq_false, <-eq_None_not_Some. done.
Qed.

Lemma dict_get_update k d e :
  dict_get k (dict_update d e) =
    match dict_get k (reverse e) with
    | Some v => Some v
    | None => dict_get k d
    end.
Proof.
  unfold dict_update. revert d.
  induction e as [|[k' v'] e IH] using rev_ind; intros d; [done|].
  rewrite foldl_app, reverse_app. simpl.
  rewrite dict_get_set. destruct (decide (k = k')); [done|apply IH].
Qed.

Lemma dict_get_elem_of k v d : dict_get k d = Some v → (k, v) ∈ d.
Proof.
  induction d as [|[k' v'] d IH]; simpl; [done|].
  destruct (decide (k = k')) as [->|?].
  - intros [= ->]. left.
  - intros. right. auto.
Qed.

Lemma dict_get_None k d : dict_get k d = None ↔ k ∉ dict_keys d.
Proof.
  unfold dict_keys. induction d as [|[k' v'] d IH]; simpl.
  - split; [intros _; apply not_elem_of_nil|done].
  - rewrite not_elem_of_cons. destruct (decide (k = k')) as [->|Hne].
    + split; [done|by intros [? _]].
    + rewrite IH. split; [done|by intros [_ ?]].
Qed.
End assoc_facts.

Section properties.
Context `{Collaborators}.

(** ** Variant type verification *)

Definition is_mapping (v : pyval) : Prop := ∃ d, v = VDict d.

Lemma clean_model_cfg_verify_error model_cfg model_type a e f problem_type l err :
  _verify_model_cfg model_cfg model_type = (l, Err err) →
  clean_model_cfg model_cfg model_type a e f problem_type = (l, Err err).
Proof. intros Hv. unfold clean_model_cfg. by rewrite Hv. Qed.

(** C8.  A mapping passes [_verify_model_cfg] unchanged and silently.  A
    value that is neither a mapping nor the string [GBMLarge] raises the
    assertion about invalid model hyperparameters.  For [GBMLarge] the
    outcome is decided by the comparison of the running version with
    1.3.0 alone: at or past it the assertion is raised with the
    deprecation message attached, before it the deprecated LightGBM
    mapping is returned and one warning is logged.  Every such error comes
    out of [clean_model_cfg] unchanged. *)
Theorem verify_model_cfg_cases (model_cfg : pyval) (model_type : key) :
  (∀ d, model_cfg = VDict d →
     _verify_model_cfg model_cfg model_type = ([], Ok d)) ∧
  (¬ is_mapping model_cfg → model_cfg ≠ VStr "GBMLarge" →
     _verify_model_cfg model_cfg model_type =
       ([], Err (AssertionError
                   (InvalidModelHyperparameters model_type model_cfg "")))) ∧
  (model_cfg = VStr "GBMLarge" →
     _verify_model_cfg model_cfg model_type =
       if version_ge ag_version "1.3.0"
       then ([], Err (AssertionError
                        (InvalidModelHyperparameters model_type model_cfg
                           (newline +:+ get_hyperparameter_str_deprecation_msg))))
       else ([Warning_deprecated get_hyperparameter_str_deprecation_msg],
             Ok get_deprecated_lightgbm_large_hyperparameters)) ∧
  (∀ l err a e f problem_type,
     _verify_model_cfg model_cfg model_type = (l, Err err) →
     clean_model_cfg model_cfg model_type a e f problem_type = (l, Err err)).
Proof.
  split_and!.
  - by intros d ->.
  - intros Hmap Hne. unfold _verify_model_cfg.
    destruct model_cfg as [| | |s| | |d]; try done.
    + rewrite bool_decide_eq_false_2; [done|]. by intros ->.
    + destruct Hmap. by exists d.
  - intros ->. unfold _verify_model_cfg.
    rewrite bool_decide_eq_true_2 by done.
    by destruct (version_ge ag_version "1.3.0").
  - intros. by apply clean_model_cfg_verify_error.
Qed.

(** ** The validity filter *)

Lemma warn_unknown_keys_Ok ag : ∃ l, warn_unknown_keys ag = (l, Ok ()).
Proof.
  unfold warn_unknown_keys. generalize (dict_keys ag) as ks.
  induction ks as [|k ks [l IH]]; simpl; [by eexists|].
  case_bool_decide.
  - rewrite bind_ret. eauto.
  - eexists. eapply bind_step; [done|apply IH].
Qed.

Lemma is_model_cfg_valid_chain model_cfg ag level problem_type b :
  dict_get AG_ARGS model_cfg = Some (VDict ag) →
  validity_chain ag level problem_type = mret b →
  ∃ l, is_model_cfg_valid model_cfg level problem_type = (l, Ok b).
Proof.
  intros Hag Hchain. unfold is_model_cfg_valid. rewrite Hag.
  destruct (warn_unknown_keys_Ok ag) as [l Hl].
  exists (l ++ []). eapply bind_step; [done|]. by rewrite Hchain.
Qed.


(** The conditions of the filter other than the two level gates: a model
    type is present, tuning is not requested together with
    [disable_in_hpo], and the problem type is among the listed ones. *)
Definition other_conditions_hold (ag : dict) (problem_type : pyval) : Prop :=
  is_none (dict_get_default (KStr "model_type") VNone ag) = false ∧
  truthy (dict_get_default (KStr "hyperparameter_tune_kwargs") VNone ag)
    && truthy (dict_get_default (KStr "disable_in_hpo") (VBool false) ag) = false ∧
  (is_none problem_type = true ∨
   py_contains problem_type
     (dict_get_default (KStr "problem_types") (VList [problem_type]) ag) = mret true).

(** C6.  With the other conditions holding, a variant with
    [valid_base=False] that is not barred as a stacker is invalid exactly
    at level 1 (so it is kept at level 2), and a variant with
    [valid_stacker=False] that is not barred as a base model is invalid
    exactly at the levels above 1 (so it is kept at level 1). *)
Theorem level_eligibility_gating (model_cfg ag : dict) (level : Z)
    (problem_type : pyval) :
  dict_get AG_ARGS model_cfg = Some (VDict ag) →
  other_conditions_hold ag problem_type →
  (dict_get (KStr "valid_base") ag = Some (VBool false) →
   truthy (dict_get_default (KStr "valid_stacker") (VBool true) ag) = true →
   ∃ l, is_model_cfg_valid model_cfg level problem_type
        = (l, Ok (negb (bool_decide (level = 1)%Z)))) ∧
  (dict_get (KStr "valid_stacker") ag = Some (VBool false) →
   truthy (dict_get_default (KStr "valid_base") (VBool true) ag) = true →
   ∃ l, is_model_cfg_valid model_cfg level problem_type
        = (l, Ok (negb (bool_decide (1 < level)%Z)))).
Proof.
  intros Hag (Hmt & Hhpo & Hpt). split.
  - intros Hbase Hstacker. eapply is_model_cfg_valid_chain; [done|].
    unfold validity_chain. rewrite Hmt, Hhpo, Hstacker.
    unfold dict_get_default at 1. rewrite Hbase. simpl negb. simpl andb.
    case_bool_decide; [done|]. simpl negb.
    destruct Hpt as [->| ->]; [done|]. by destruct (is_none problem_type).
  - intros Hstacker Hbase. eapply is_model_cfg_valid_chain; [done|].
    unfold validity_chain. rewrite Hmt, Hhpo, Hbase.
    unfold dict_get_default at 1. rewrite Hstacker. simpl negb. simpl andb.
    case_bool_decide; [done|]. simpl negb.
    destruct Hpt as [->| ->]; [done|]. by destruct (is_none problem_type).
Qed.

(** ** Level selection *)

(** An integer or the word [default]. *)
Definition is_level_key (k : key) : Prop :=
  (∃ z, k = KInt z) ∨ k = KStr "default".

(** C4.  [select_level], through which [get_preset_models] reads the
    level's sub-mapping (lines 107-110), returns the value stored under
    the requested level when that key is present, the value stored under
    [default] when the level is absent and [default] is present, and the
    whole mapping when it has no level key at all. *)
Theorem level_selection (level : Z) (hyperparameters : dict) :
  (∀ v, dict_get (KInt level) hyperparameters = Some v →
        select_level level hyperparameters = mret v) ∧
  (∀ v, dict_get (KInt level) hyperparameters = None →
        dict_get (KStr "default") hyperparameters = Some v →
        select_level level hyperparameters = mret v) ∧
  ((∀ k, k ∈ dict_keys hyperparameters → ¬ is_level_key k) →
   select_level level hyperparameters = mret (VDict hyperparameters)).
Proof.
  unfold select_level. split_and!.
  - intros v Hv.
    assert (Hmem : dict_mem (KInt level) hyperparameters = true).
    { apply dict_mem_true. by rewrite Hv. }
    cbv zeta. rewrite !Hmem. cbn [negb andb]. unfold dict_getitem. by rewrite Hv.
  - intros v Hlevel Hdefault.
    assert (Hmem : dict_mem (KInt level) hyperparameters = false).
    { by apply dict_mem_false. }
    assert (Hmem' : dict_mem (KStr "default") hyperparameters = true).
    { apply dict_mem_true. by rewrite Hdefault. }
    cbv zeta. rewrite Hmem, !Hmem'. cbn [negb andb].
    unfold dict_getitem. by rewrite Hdefault.
  - intros Hno.
    assert (Hmem : dict_mem (KInt level) hyperparameters = false).
    { apply dict_mem_false, dict_get_None. intros Hin.
      apply (Hno _ Hin). left. by eexists. }
    assert (Hmem' : dict_mem (KStr "default") hyperparameters = false).
    { apply dict_mem_false, dict_get_None. intros Hin.
      apply (Hno _ Hin). by right. }
    cbv zeta. rewrite Hmem, !Hmem'. by rewrite bool_decide_eq_true_2 by done.
Qed.

(** ** Unsupported problem types *)

Lemma py_eq_str v s : py_eq v (VStr s) = true ↔ v = VStr s.
Proof.
  destruct v; simpl; try (split; [done|by intros [=]]).
  rewrite bool_decide_eq_true. split; [by intros ->|by intros [= ->]].
Qed.

Lemma existsb_py_eq_str v (ss : list string) :
  existsb (py_eq v) (VStr <$> ss) = true ↔ v ∈ VStr <$> ss.
Proof.
  induction ss as [|s ss IH]; simpl.
  - split; [done|]. by intros ?%elem_of_nil.
  - rewrite orb_true_iff, elem_of_cons, IH, py_eq_str. done.
Qed.

(** C7 (amended).  When the problem type is none of the five recognised
    kinds, [get_preset_models] runs the preprocessing of lines 90-94 and
    nothing else: an exception raised by [process_hyperparameters] or by
    the preprocess callback comes out as it is, and when the preprocessing
    returns, [NotImplementedError] is raised with nothing logged beyond
    what the preprocessing logged.  No variant has been verified, merged,
    filtered, named or instantiated, and no other error of
    [get_preset_models] can come first. *)
Theorem unsupported_problem_type_first (problem_type eval_metric : pyval)
    (hyperparameters : dict) (invalid_model_names : option (list string))
    (kw : preset_kwargs) :
  problem_type ∉ [BINARY; MULTICLASS; REGRESSION; SOFTCLASS; QUANTILE] →
  get_preset_models problem_type eval_metric hyperparameters
    invalid_model_names kw
  = match preprocessed kw hyperparameters with
    | (l, Ok _) => (l, Err NotImplementedError)
    | (l, Err e) => (l, Err e)
    end.
Proof.
  intros Hnot. unfold get_preset_models.
  destruct (preprocessed kw hyperparameters) as [l [hp|e]] eqn:Hpre; [|done].
  rewrite (bind_eq _ _ _ _ eq_refl).
  destruct (existsb (py_eq problem_type)
              [BINARY; MULTICLASS; REGRESSION; SOFTCLASS; QUANTILE]) eqn:Hex.
  - destruct Hnot.
    by apply (existsb_py_eq_str _
      ["binary"; "multiclass"; "regression"; "softclass"; "quantile"]).
  - cbn [negb raise fst snd]. by rewrite app_nil_r.
Qed.

(** ** Merge precedence of the ag-args layers *)

Lemma as_dict_Ok v l d : as_dict v = (l, Ok d) → v = VDict d ∧ l = [].
Proof. destruct v; try done. by intros [= <- <-]. Qed.

Lemma dict_getitem_Ok k (d : dict) l v :
  dict_getitem k d = (l, Ok v) → dict_get k d = Some v ∧ l = [].
Proof.
  unfold dict_getitem. destruct (dict_get k d); [|done]. by intros [= <- <-].
Qed.

Lemma dict_getitem_as_dict_Ok k (d : dict) l ag :
  dict_getitem k d ≫= as_dict = (l, Ok ag) → dict_get k d = Some (VDict ag).
Proof.
  intros (? & v & ? & [Hget _]%dict_getitem_Ok & [-> _]%as_dict_Ok & _)%bind_Ok.
  done.
Qed.

Lemma dict_set_set {V} k (v w : V) d :
  dict_set k v (dict_set k w d) = dict_set k v d.
Proof.
  induction d as [|[k' v'] d IH]; simpl.
  - by rewrite decide_True.
  - destruct (decide (k = k')) as [->|?]; simpl.
    + by rewrite decide_True.
    + rewrite decide_False by done. by rewrite IH.
Qed.

(** The variant's own ag-args: the sub-mapping under [AG_ARGS], empty
    when the variant has none. *)
Definition own_ag_args (model_cfg : dict) : dict :=
  match dict_get AG_ARGS model_cfg with
  | Some (VDict ag) => ag
  | _ => []
  end.

Lemma clean_model_cfg_ag_args model_cfg model_type ag_args ag_args_ensemble
    ag_args_fit problem_type l cleaned :
  clean_model_cfg model_cfg model_type ag_args ag_args_ensemble ag_args_fit
    problem_type = (l, Ok cleaned) →
  ∃ l0 d l1 c,
    _verify_model_cfg model_cfg model_type = (l0, Ok d) ∧
    resolve_model_type
      (dict_get_default (KStr "model_type") (of_key model_type) (own_ag_args d))
      = (l1, Ok c) ∧
    dict_get AG_ARGS cleaned =
      Some (VDict (merge_extra (cls_default_ag_args (class_table c))
                     (merge_extra ag_args
                        (dict_set (KStr "model_type") (VCls c) (own_ag_args d))))).
Proof.
  unfold clean_model_cfg. intros Hclean.
  apply bind_Ok in Hclean as (l0 & d & l1 & Hverify & Hclean & ->).
  exists l0, d. cbv zeta in Hclean.
  apply bind_Ok in Hclean as (? & ag & ? & Hag & Hclean & ->).
  apply dict_getitem_as_dict_Ok in Hag.
  assert (ag = own_ag_args d) as ->.
  { unfold own_ag_args. destruct (dict_mem AG_ARGS d) eqn:Hmem.
    - by rewrite Hag.
    - rewrite dict_get_set_eq in Hag. apply dict_mem_false in Hmem.
      rewrite Hmem. congruence. }
  clear Hag.
  apply bind_Ok in Hclean as (? & mt & ? & [Hmt _]%dict_getitem_Ok & Hclean & ->).
  assert (mt = dict_get_default (KStr "model_type") (of_key model_type)
                 (own_ag_args d)) as ->.
  { unfold dict_get_default. destruct (dict_mem _ _) eqn:Hmem.
    - by rewrite Hmt.
    - apply dict_mem_false in Hmem. rewrite Hmem.
      rewrite dict_get_set_eq in Hmt. by injection Hmt. }
  clear Hmt.
  destruct (is_none _); [done|].
  apply bind_Ok in Hclean as (lr & c & ? & Hresolve & Hclean & ->).
  exists lr, c. split; [done|]. split; [done|].
  set (own := dict_set (KStr "model_type") (VCls c) _) in Hclean.
  assert (own = dict_set (KStr "model_type") (VCls c) (own_ag_args d)) as Hown.
  { unfold own. destruct (dict_mem _ _); [done|apply dict_set_set]. }
  rewrite Hown in Hclean. clear own Hown.
  rewrite !dict_set_set in Hclean.
  set (merged := merge_extra ag_args _) in *.
  apply bind_Ok in Hclean as (? & cfg1 & ? & Hens & Hclean & ->).
  assert (dict_get AG_ARGS cfg1 = Some (VDict merged)) as Hcfg1.
  { destruct ag_args_ensemble.
    - apply bind_Ok in Hens as (? & ? & ? & _ & [= _ <-] & _).
      rewrite dict_get_set_ne by done. apply dict_get_set_eq.
    - injection Hens as _ <-. apply dict_get_set_eq. }
  clear Hens.
  apply bind_Ok in Hclean as (? & cfg2 & ? & Hfit & Hclean & ->).
  assert (dict_get AG_ARGS cfg2 = Some (VDict merged)) as Hcfg2.
  { destruct ag_args_fit.
    - apply bind_Ok in Hfit as (? & ? & ? & _ & [= _ <-] & _).
      rewrite dict_get_set_ne by done.
      destruct (dict_mem AG_ARGS_FIT cfg1); [done|].
      by rewrite dict_get_set_ne.
    - by injection Hfit as _ <-. }
  clear Hfit Hcfg1.
  apply bind_Ok in Hclean as (? & ag & ? & Hag & Hclean & ->).
  apply dict_getitem_as_dict_Ok in Hag.
  assert (ag = merged) as -> by congruence.
  set (final := match cls_default_ag_args _ with Some _ => _ | None => _ end) in Hclean.
  assert (dict_get AG_ARGS final =
          Some (VDict (merge_extra (cls_default_ag_args (class_table c)) merged)))
    as Hfinal.
  { unfold final. destruct (cls_default_ag_args (class_table c)); simpl;
      [apply dict_get_set_eq|done]. }
  destruct (cls_default_ag_args_ensemble _ _).
  - apply bind_Ok in Hclean as (? & ? & ? & _ & [= _ <-] & _).
    by rewrite dict_get_set_ne.
  - by injection Hclean as _ <-.
Qed.

(** C1 (as amended).  The resolved ag-args bundle of a variant is the
    registry default bundle of the resolved model class updated with the
    effective bundle, and the effective bundle is a copy of the caller's
    global bundle updated with the variant's own ag-args; the variant's
    own ag-args enter this merge with their [model_type] entry set to the
    resolved class, so the resolved bundle always carries that entry too.
    With defaults [{a:1,b:2}], global override [{b:3,c:4}] and variant
    ag-args [{c:5}] the resolved bundle is
    [{a:1,b:3,c:5,model_type:<class>}]. *)
Theorem merge_precedence (model_cfg : pyval) (model_type : key)
    (ag_args ag_args_ensemble ag_args_fit : option dict) (problem_type : pyval)
    (l : list log_event) (cleaned : dict) :
  clean_model_cfg model_cfg model_type ag_args ag_args_ensemble ag_args_fit
    problem_type = (l, Ok cleaned) →
  ∃ l0 d l1 c,
    _verify_model_cfg model_cfg model_type = (l0, Ok d) ∧
    resolve_model_type
      (dict_get_default (KStr "model_type") (of_key model_type) (own_ag_args d))
      = (l1, Ok c) ∧
    dict_get AG_ARGS cleaned =
      Some (VDict (merge_extra (cls_default_ag_args (class_table c))
                     (merge_extra ag_args
                        (dict_set (KStr "model_type") (VCls c) (own_ag_args d))))) ∧
    (cls_default_ag_args (class_table c)
       = Some [(KStr "a", VInt 1); (KStr "b", VInt 2)] →
     ag_args = Some [(KStr "b", VInt 3); (KStr "c", VInt 4)] →
     own_ag_args d = [(KStr "c", VInt 5)] →
     dict_get AG_ARGS cleaned =
       Some (VDict [(KStr "a", VInt 1); (KStr "b", VInt 3); (KStr "c", VInt 5);
                    (KStr "model_type", VCls c)])).
Proof.
  intros (l0 & d & l1 & c & Hverify & Hresolve & Hag)%clean_model_cfg_ag_args.
  exists l0, d, l1, c. split_and!; [done..|].
  intros Hdflt -> Hown. by rewrite Hag, Hdflt, Hown.
Qed.

(** ** Name allocation *)

Lemma string_app_length (s t : string) :
  String.length (s +:+ t) = String.length s + String.length t.
Proof. induction s as [|a s IH]; simpl; [done|by rewrite IH]. Qed.

Lemma string_app_cons a (s t : string) : String a s +:+ t = String a (s +:+ t).
Proof. done. Qed.

Lemma string_app_assoc (s t u : string) : (s +:+ t) +:+ u = s +:+ t +:+ u.
Proof.
  induction s as [|a s IH]; [done|]. by rewrite !string_app_cons, IH.
Qed.

Lemma string_app_inj_r (t s1 s2 : string) : s1 +:+ t = s2 +:+ t → s1 = s2.
Proof.
  revert s2. induction s1 as [|a s1 IH]; intros [|b s2] Heq;
    rewrite ?string_app_cons in Heq.
  - done.
  - apply (f_equal String.length) in Heq.
    rewrite ?string_app_length in Heq. simpl in Heq.
    rewrite ?string_app_length in Heq. lia.
  - apply (f_equal String.length) in Heq.
    rewrite ?string_app_length in Heq. simpl in Heq.
    rewrite ?string_app_length in Heq. lia.
  - injection Heq as -> Heq. f_equal. by apply IH.
Qed.

Lemma numbered_name_inj name_orig name_suffix (i j : Z) :
  numbered_name name_orig name_suffix i = numbered_name name_orig name_suffix j →
  i = j.
Proof.
  unfold numbered_name. intros Heq.
  apply (inj (String.app _)) in Heq. apply (inj (String.app _)) in Heq.
  apply string_app_inj_r in Heq. by apply (inj pretty).
Qed.

Lemma numbered_stacker_inj name_orig name_bag_suffix level name_suffix (i j : Z) :
  (numbered_stacker name_orig name_bag_suffix level name_suffix i).2 =
  (numbered_stacker name_orig name_bag_suffix level name_suffix j).2 →
  i = j.
Proof.
  unfold numbered_stacker, stacker_name. simpl. intros Heq.
  rewrite !string_app_assoc in Heq.
  apply (inj (String.app _)) in Heq. apply (inj (String.app _)) in Heq.
  apply string_app_inj_r in Heq. by apply (inj pretty).
Qed.

Section loop.
Context {A : Type} (tested : A → string) (candidate : Z → A)
        (invalid_name_set : gset string).
Hypothesis candidate_inj :
  ∀ i j, tested (candidate i) = tested (candidate j) → i = j.

(** From the candidate of [n] on, the loop stops at the first counter
    value whose name is free, provided the fuel covers the names of the
    set that are still ahead. *)
Lemma while_in_use_candidates fuel (n : Z) (ahead : gset string) :
  (∀ k, (n ≤ k)%Z → tested (candidate k) ∈ invalid_name_set →
        tested (candidate k) ∈ ahead) →
  size ahead ≤ fuel →
  ∃ k, (n ≤ k)%Z ∧
       while_in_use fuel tested candidate invalid_name_set
         (candidate n) (n + 1) = mret (candidate k) ∧
       (tested (candidate k) ∉ invalid_name_set) ∧
       (∀ j, (n ≤ j < k)%Z → tested (candidate j) ∈ invalid_name_set).
Proof.
  revert n ahead. induction fuel as [|fuel IH]; intros n ahead Hahead Hsize.
  - exists n. simpl.
    assert (tested (candidate n) ∉ invalid_name_set) as Hfree.
    { intros Hin. apply (Hahead n) in Hin; [|lia].
      assert (ahead ≡ ∅) as Hempty by (apply size_empty_inv; lia).
      set_solver. }
    rewrite bool_decide_eq_false_2 by done.
    split_and!; [lia|done|done|lia].
  - simpl. case_bool_decide as Hin.
    + destruct (IH (n + 1)%Z (ahead ∖ {[ tested (candidate n) ]}))
        as (k & Hk & Hloop & Hfree & Hused).
      * intros k Hk Hkin. apply elem_of_difference. split.
        { apply Hahead; [lia|done]. }
        rewrite not_elem_of_singleton. intros Heq%candidate_inj. lia.
      * rewrite size_difference, size_singleton.
        { lia. }
        apply singleton_subseteq_l, Hahead; [lia|done].
      * exists k. split_and!; [lia|done..|].
        intros j Hj. destruct (decide (j = n)) as [->|]; [done|].
        apply Hused. lia.
    + exists n. split_and!; [lia|done..|lia].
Qed.

(** With the size of the set plus one as fuel the loop returns, and
    what it returns is either the first name, when that is free, or the
    candidate of the first counter value from [n] on whose name is free. *)
Lemma while_in_use_terminates (current : A) (n : Z) :
  ∃ r, while_in_use (S (size invalid_name_set)) tested candidate
         invalid_name_set current n = mret r ∧
       (tested r ∉ invalid_name_set) ∧
       (r = current ∨
        tested current ∈ invalid_name_set ∧
        ∃ k, (n ≤ k)%Z ∧ r = candidate k ∧
             ∀ j, (n ≤ j < k)%Z → tested (candidate j) ∈ invalid_name_set).
Proof.
  cbn [while_in_use]. case_bool_decide as Hin.
  - destruct (while_in_use_candidates (size invalid_name_set) n invalid_name_set)
      as (k & Hk & Hloop & Hfree & Hused); [done|done|].
    exists (candidate k). split_and!; [done..|]. right. eauto 6.
  - exists current. split_and!; [done..|]. by left.
Qed.
End loop.

Lemma allocate_name_free ag name_orig name_suffix ensembled
    (used : gset string) level :
  ∃ name_ name_stacker,
    allocate_name ag name_orig name_suffix ensembled used level
      = mret (name_, name_stacker) ∧
    if ensembled then ∃ s, name_stacker = Some s ∧ s ∉ used
    else name_stacker = None ∧ fmt name_ ∉ used.
Proof.
  unfold allocate_name. cbv zeta. destruct ensembled.
  - destruct (while_in_use_terminates snd
                (numbered_stacker name_orig
                   (dict_get_default (KStr "name_bag_suffix") (VStr "_BAG") ag)
                   level (default "" name_suffix))
                used (numbered_stacker_inj _ _ _ _)
                (name_orig,
                 stacker_name name_orig
                   (dict_get_default (KStr "name_bag_suffix") (VStr "_BAG") ag)
                   level (default "" name_suffix)) 2)
      as (r & Hloop & Hfree & _).
    rewrite Hloop, bind_ret. exists r.1, (Some r.2). split; [done|]. eauto.
  - destruct (while_in_use_terminates id
                (numbered_name name_orig (default "" name_suffix))
                used (numbered_name_inj _ _)
                (fmt name_orig +:+ default "" name_suffix) 2)
      as (r & Hloop & Hfree & _).
    rewrite Hloop, bind_ret. exists (VStr r), None. done.
Qed.

(** C10.  The candidate names of distinct counter values are distinct, in
    the plain and in the ensembled path, and [allocate_name] (the loops of
    lines 299-301 and 306-309, run with the size of the used-name set plus
    one as fuel) always returns: a name outside the used-name set in the
    plain path, a stacker name outside it in the ensembled path. *)
Theorem name_allocation_terminates (ag : dict) (name_orig : pyval)
    (name_suffix : option string) (ensembled : bool)
    (invalid_name_set : gset string) (level : Z) :
  (∀ suffix i j,
     numbered_name name_orig suffix i = numbered_name name_orig suffix j →
     i = j) ∧
  (∀ bag_suffix suffix i j,
     (numbered_stacker name_orig bag_suffix level suffix i).2 =
     (numbered_stacker name_orig bag_suffix level suffix j).2 →
     i = j) ∧
  ∃ name_ name_stacker,
    allocate_name ag name_orig name_suffix ensembled invalid_name_set level
      = mret (name_, name_stacker) ∧
    if ensembled then ∃ s, name_stacker = Some s ∧ s ∉ invalid_name_set
    else name_stacker = None ∧ fmt name_ ∉ invalid_name_set.
Proof.
  split_and!.
  - intros suffix i j. apply numbered_name_inj.
  - intros bag_suffix suffix i j. apply numbered_stacker_inj.
  - apply allocate_name_free.
Qed.

(** ** Uniqueness of the names of one resolution pass *)

Lemma for_each_invariant {A St : Type} (P : St → Prop) (f : St → A → M St) xs :
  (∀ s x l s', P s → f s x = (l, Ok s') → P s') →
  ∀ s l s', P s → for_each f xs s = (l, Ok s') → P s'.
Proof.
  intros Hstep. induction xs as [|x xs IH]; intros s l s' Hs Hrun;
    cbn [for_each] in Hrun.
  - unfold mret, M_ret in Hrun. by injection Hrun as _ <-.
  - apply bind_Ok in Hrun as (l1 & s1 & l2 & Hf & Hrun & ->). eauto.
Qed.

Lemma model_factory_name_free model_cfg path problem_type eval_metric
    name_suffix ensemble_type ensemble_kwargs (used : gset string) level l m :
  model_factory model_cfg path problem_type eval_metric name_suffix
    ensemble_type ensemble_kwargs used level = (l, Ok m) →
  name m ∉ used.
Proof.
  unfold model_factory. intros Hmf.
  apply bind_Ok in Hmf as (? & ag & ? & _ & Hmf & _).
  apply bind_Ok in Hmf as (? & mt & ? & _ & Hmf & _).
  apply bind_Ok in Hmf as (? & c & ? & _ & Hmf & _).
  apply bind_Ok in Hmf as (? & name_orig & ? & _ & Hmf & _).
  apply bind_Ok in Hmf as (? & [name_ name_stacker] & ? & Halloc & Hmf & _).
  destruct (allocate_name_free ag name_orig name_suffix
              (bool_decide (is_Some ensemble_kwargs)) used level)
    as (n' & ns' & Halloc' & Hfree).
  rewrite Halloc' in Halloc. unfold mret, M_ret in Halloc.
  injection Halloc as _ -> ->.
  apply bind_Ok in Hmf as (? & [model_params extra] & ? & _ & Hmf & _).
  destruct ensemble_kwargs as [ek|].
  - rewrite bool_decide_eq_true_2 in Hfree by eauto.
    destruct Hfree as (s & -> & Hs).
    apply bind_Ok in Hmf as (? & hp & ? & _ & Hmf & _).
    apply bind_Ok in Hmf as (? & ex & ? & _ & Hmf & _).
    destruct (forallb _ _); [|done].
    unfold mret, M_ret in Hmf. by injection Hmf as _ <-.
  - rewrite bool_decide_eq_false_2 in Hfree by (by intros [? ?]).
    destruct Hfree as [-> Hfree].
    unfold mret, M_ret in Hmf. by injection Hmf as _ <-.
Qed.

(** What the loop of lines 145-164 maintains: the used-name set is the
    caller's exclusion set together with the names allocated so far, and
    each model was built by [model_factory] against the exclusion set
    together with the names of the models before it. *)
Definition allocation_inv (kw : preset_kwargs) (problem_type eval_metric : pyval)
    (excluded : gset string) (acc : list model * dict * gset string) : Prop :=
  acc.2 = excluded ∪ list_to_set (name <$> acc.1.1) ∧
  ∀ i m, acc.1.1 !! i = Some m →
    ∃ model_cfg l,
      model_factory model_cfg (kw_path kw) problem_type eval_metric
        (kw_name_suffix kw) (kw_ensemble_type kw) (kw_ensemble_kwargs kw)
        (excluded ∪ list_to_set (name <$> take i acc.1.1)) (kw_level kw)
      = (l, Ok m).

Lemma instantiate_inv kw problem_type eval_metric excluded acc model_cfg l acc' :
  allocation_inv kw problem_type eval_metric excluded acc →
  instantiate kw problem_type eval_metric acc model_cfg = (l, Ok acc') →
  allocation_inv kw problem_type eval_metric excluded acc'.
Proof.
  destruct acc as [[models fit] used]. intros [Hused Hbuilt] Hinst.
  simpl in Hused, Hbuilt. subst used. unfold instantiate in Hinst.
  apply bind_Ok in Hinst as (l1 & m & ? & Hmf & Hinst & _).
  apply bind_Ok in Hinst as (? & ag & ? & _ & Hinst & _).
  apply bind_Ok in Hinst as (? & [] & ? & _ & Hinst & _).
  unfold mret, M_ret in Hinst. injection Hinst as _ <-.
  split; simpl.
  - rewrite fmap_app, list_to_set_app_L. simpl. set_solver.
  - intros i m' Hi. destruct (decide (i < length models)) as [Hlt|Hge].
    + rewrite lookup_app_l in Hi by done.
      rewrite take_app_le by lia. by apply Hbuilt.
    + rewrite lookup_app_r in Hi by lia.
      destruct (i - length models) as [|?] eqn:Hidx; simpl in Hi; [|done].
      injection Hi as <-. assert (i = length models) as -> by lia.
      rewrite take_app_length. eauto.
Qed.

Lemma allocation_inv_unique kw problem_type eval_metric excluded acc :
  allocation_inv kw problem_type eval_metric excluded acc →
  NoDup (name <$> acc.1.1) ∧ ∀ m, m ∈ acc.1.1 → name m ∉ excluded.
Proof.
  destruct acc as [[models fit] used]. intros [_ Hbuilt]. simpl in *. split.
  - apply NoDup_alt. intros i j x Hi Hj.
    apply list_lookup_fmap_Some in Hi as (mi & -> & Hmi).
    apply list_lookup_fmap_Some in Hj as (mj & Hname & Hmj).
    assert (∀ a b ma mb, a < b → models !! a = Some ma → models !! b = Some mb →
              name ma ≠ name mb) as Hlt.
    { intros a b ma mb Hab Ha Hb Heq.
      destruct (Hbuilt b mb Hb) as (cfg & l & Hmf).
      apply model_factory_name_free in Hmf. apply Hmf.
      apply elem_of_union_r, elem_of_list_to_set, list_elem_of_fmap.
      exists ma. split; [done|].
      apply list_elem_of_lookup. exists a. rewrite lookup_take_lt; done. }
    destruct (Nat.lt_trichotomy i j) as [Hij|[Hij|Hij]]; [|done|].
    + by destruct (Hlt i j mi mj).
    + by destruct (Hlt j i mj mi).
  - intros m (i & Hi)%list_elem_of_lookup.
    destruct (Hbuilt i m Hi) as (cfg & l & Hmf).
    apply model_factory_name_free in Hmf. set_solver.
Qed.

Lemma get_preset_models_instantiate problem_type eval_metric hyperparameters
    invalid_model_names kw l models model_args_fit :
  get_preset_models problem_type eval_metric hyperparameters
    invalid_model_names kw = (l, Ok (models, model_args_fit)) →
  ∃ model_cfgs l' used,
    for_each (instantiate kw problem_type eval_metric) model_cfgs
      ([], [], list_to_set (default [] invalid_model_names))
    = (l', Ok (models, model_args_fit, used)).
Proof.
  unfold get_preset_models. intros Hrun.
  apply bind_Ok in Hrun as (? & hp & ? & _ & Hrun & _). cbv zeta in Hrun.
  destruct (negb _); [done|].
  apply bind_Ok in Hrun as (? & hp_level & ? & _ & Hrun & _).
  apply bind_Ok in Hrun as (? & hp_dict & ? & _ & Hrun & _).
  apply bind_Ok in Hrun as (? & buckets & ? & _ & Hrun & _).
  apply bind_Ok in Hrun as (? & model_cfgs & ? & _ & Hrun & _).
  apply bind_Ok in Hrun as (? & [] & ? & _ & Hrun & _).
  apply bind_Ok in Hrun as (l' & [[ms fit] used] & ? & Hloop & Hrun & _).
  unfold mret, M_ret in Hrun. injection Hrun as _ <- <-. eauto.
Qed.

(** C3.  In one resolution pass no two returned models have the same
    name and no returned model has a name of the caller's
    [invalid_model_names]; the model at position [i] was built by
    [model_factory] against the used-name set that already holds the
    caller's names and the names of the models at the positions before
    [i]. *)
Theorem names_unique (problem_type eval_metric : pyval) (hyperparameters : dict)
    (invalid_model_names : option (list string)) (kw : preset_kwargs)
    (l : list log_event) (models : list model) (model_args_fit : dict) :
  get_preset_models problem_type eval_metric hyperparameters
    invalid_model_names kw = (l, Ok (models, model_args_fit)) →
  NoDup (name <$> models) ∧
  (∀ m, m ∈ models → name m ∉ default [] invalid_model_names) ∧
  (∀ i m, models !! i = Some m →
     ∃ model_cfg l',
       model_factory model_cfg (kw_path kw) problem_type eval_metric
         (kw_name_suffix kw) (kw_ensemble_type kw) (kw_ensemble_kwargs kw)
         (list_to_set (default [] invalid_model_names)
            ∪ list_to_set (name <$> take i models)) (kw_level kw)
       = (l', Ok m)).
Proof.
  intros (model_cfgs & l' & used & Hloop)%get_preset_models_instantiate.
  eapply (for_each_invariant
            (allocation_inv kw problem_type eval_metric
               (list_to_set (default [] invalid_model_names)))) in Hloop.
  - pose proof (allocation_inv_unique _ _ _ _ _ Hloop) as [Hnodup Hexcl].
    destruct Hloop as [_ Hbuilt]. simpl in *. split_and!; [done| |done].
    intros m Hm Hin. apply (Hexcl m Hm). by apply elem_of_list_to_set.
  - intros. by eapply instantiate_inv.
  - split; simpl; [set_solver|]. intros i m Hi. by rewrite lookup_nil in Hi.
Qed.

(** ** Priority order *)

(** The bucket update of one candidate: a valid one is appended under its
    priority, an invalid one leaves the buckets alone. *)
Definition push (o : option (key * dict)) (buckets : list (key * list dict))
    : list (key * list dict) :=
  match o with
  | Some (p, model_cfg) => bucket_append p model_cfg buckets
  | None => buckets
  end.

(** The integer priority stored in a resolved config. *)
Definition priority_key (model_cfg : dict) : option key :=
  match dict_get AG_ARGS model_cfg with
  | Some (VDict ag) => dict_get (KStr "priority") ag ≫= to_key
  | _ => None
  end.

Lemma add_candidate_outcome kw problem_type default_priorities model_type
    buckets raw l buckets' :
  add_candidate kw problem_type default_priorities model_type buckets raw
    = (l, Ok buckets') →
  ∃ o, buckets' = push o buckets ∧
       (∀ b, add_candidate kw problem_type default_priorities model_type b raw
             = (l, Ok (push o b))) ∧
       (∀ p model_cfg, o = Some (p, model_cfg) → priority_key model_cfg = Some p).
Proof.
  unfold add_candidate. intros Hadd.
  apply bind_Ok in Hadd as (l1 & cfg & ? & Hclean & Hadd & ->).
  apply bind_Ok in Hadd as (l2 & ag & ? & Hag & Hadd & ->).
  cbv zeta in Hadd.
  apply bind_Ok in Hadd as (l3 & is_valid & l4 & Hvalid & Hadd & ->).
  set (prio := dict_get_default (KStr "priority") _ ag) in *.
  set (cfg1 := dict_set AG_ARGS _ cfg) in *.
  set (cfg2 := match dict_get AG_ARGS_FIT cfg1 with
               | Some v => if truthy v then cfg1 else dict_pop AG_ARGS_FIT cfg1
               | None => cfg1
               end) in *.
  assert (Hprio : ∀ p, to_key prio = Some p → priority_key cfg2 = Some p).
  { intros p Hp. unfold priority_key.
    assert (dict_get AG_ARGS cfg2
            = Some (VDict (dict_set (KStr "priority") prio ag))) as ->.
    { unfold cfg2. destruct (dict_get AG_ARGS_FIT cfg1) as [v|];
        [destruct (truthy v)|]; rewrite ?dict_get_pop_ne by done;
        apply dict_get_set_eq. }
    by rewrite dict_get_set_eq. }
  destruct is_valid.
  - destruct (to_key prio) as [p|] eqn:Hp; [|done].
    unfold mret, M_ret in Hadd. injection Hadd as <- <-.
    exists (Some (p, cfg2)). split_and!; [done| |].
    + intros b. eapply bind_step; [exact Hclean|].
      eapply bind_step; [exact Hag|]. cbv zeta.
      eapply bind_step; [exact Hvalid|]. fold prio. by rewrite Hp.
    + intros p' cfg' [= <- <-]. by apply Hprio.
  - unfold mret, M_ret in Hadd. injection Hadd as <- <-.
    exists None. split_and!; [done| |done].
    intros b. eapply bind_step; [exact Hclean|].
    eapply bind_step; [exact Hag|]. cbv zeta.
    by eapply bind_step; [exact Hvalid|].
Qed.

(** The variants of one model type, and the sequence in which the loops of
    lines 114-121 meet the variants of a level. *)
Definition variants_of (v : pyval) : list pyval :=
  match v with
  | VList l => l
  | v => [v]
  end.

Definition discovery_order (hp_level : dict) : list (key * pyval) :=
  model_type ← dict_keys hp_level;
  (λ raw, (model_type, raw))
    <$> variants_of (default VNone (dict_get model_type hp_level)).

(** What lines 122-137 make of one discovered variant, whatever the
    buckets are: [Some] of its priority and resolved config when it is
    valid, [None] when it is dropped. *)
Definition resolves (kw : preset_kwargs) (problem_type : pyval)
    (default_priorities : dict) (d : key * pyval) (o : option (key * dict))
    : Prop :=
  (∃ l, ∀ b, add_candidate kw problem_type default_priorities d.1 b d.2
             = (l, Ok (push o b))) ∧
  (∀ p model_cfg, o = Some (p, model_cfg) → priority_key model_cfg = Some p).

Lemma add_candidates_outcomes kw problem_type default_priorities model_type
    raws buckets l buckets' :
  for_each (add_candidate kw problem_type default_priorities model_type)
    raws buckets = (l, Ok buckets') →
  ∃ os, Forall2 (resolves kw problem_type default_priorities)
          ((λ raw, (model_type, raw)) <$> raws) os ∧
        buckets' = foldl (λ b o, push o b) buckets os.
Proof.
  revert buckets l. induction raws as [|raw raws IH]; intros buckets l Hrun;
    cbn [for_each] in Hrun.
  - unfold mret, M_ret in Hrun. injection Hrun as _ <-. by exists [].
  - apply bind_Ok in Hrun as (l1 & b1 & l2 & Hadd & Hrun & ->).
    apply add_candidate_outcome in Hadd as (o & -> & Hall & Hprio).
    apply IH in Hrun as (os & Hos & ->).
    exists (o :: os). split; [|done].
    constructor; [|done]. split; [by exists l1|done].
Qed.

Lemma add_model_types_outcomes kw problem_type default_priorities hp_level
    model_types buckets l buckets' :
  for_each (add_model_type kw problem_type default_priorities hp_level)
    model_types buckets = (l, Ok buckets') →
  ∃ os, Forall2 (resolves kw problem_type default_priorities)
          (model_type ← model_types;
           (λ raw, (model_type, raw))
             <$> variants_of (default VNone (dict_get model_type hp_level))) os ∧
        buckets' = foldl (λ b o, push o b) buckets os.
Proof.
  revert buckets l.
  induction model_types as [|model_type model_types IH]; intros buckets l Hrun;
    cbn [for_each] in Hrun.
  - unfold mret, M_ret in Hrun. injection Hrun as _ <-. by exists [].
  - apply bind_Ok in Hrun as (l1 & b1 & l2 & Hadd & Hrun & ->).
    unfold add_model_type in Hadd.
    apply bind_Ok in Hadd as (? & v & ? & [Hv _]%dict_getitem_Ok & Hadd & _).
    apply add_candidates_outcomes in Hadd as (os1 & Hos1 & ->).
    apply IH in Hrun as (os2 & Hos2 & ->).
    exists (os1 ++ os2). split; [|by rewrite foldl_app].
    cbn [mbind list_bind]. rewrite Hv. simpl default.
    apply Forall2_app; [|done]. by destruct v.
Qed.

Lemma dict_keys_set {V} k (v : V) (d : list (key * V)) :
  dict_keys (dict_set k v d) =
    match dict_get k d with
    | Some _ => dict_keys d
    | None => dict_keys d ++ [k]
    end.
Proof.
  unfold dict_keys. induction d as [|[k' v'] d IH]; [done|].
  cbn [dict_set dict_get].
  destruct (decide (k = k')) as [->|Hne]; [done|].
  rewrite !fmap_cons, IH. by destruct (dict_get k d).
Qed.

(** The buckets after a run of candidates: the keys are distinct, a key
    is present exactly when some valid candidate had it as priority, and
    its bucket lists the valid candidates of that priority in the order
    of the run. *)
Lemma buckets_spec (os : list (option (key * dict))) :
  let b := foldl (λ b o, push o b) [] os in
  NoDup (dict_keys b) ∧
  ∀ p, ((λ c, (p, c)) <$> default [] (dict_get p b)
        = filter (λ pc, pc.1 = p) (omap id os)) ∧
       (dict_get p b = None ↔ p ∉ (omap id os).*1).
Proof.
  induction os as [|o os IH] using rev_ind; simpl.
  - split; [constructor|]. intros p. split; [done|].
    split; [intros _; apply not_elem_of_nil|done].
  - rewrite foldl_app, omap_app. simpl.
    set (b := foldl (λ b o, push o b) [] os) in *.
    destruct IH as [Hnodup Hb].
    destruct o as [[q model_cfg]|]; simpl; [|by rewrite app_nil_r].
    unfold bucket_append. split.
    + rewrite dict_keys_set. destruct (dict_get q b) eqn:Hq; [done|].
      apply NoDup_app. split_and!; [done| |apply NoDup_singleton].
      intros x Hx ->%list_elem_of_singleton.
      by apply dict_get_None in Hq.
    + intros p. rewrite dict_get_set, filter_app, fmap_app, filter_cons, filter_nil.
      destruct (Hb p) as [Hbucket Hnone]. simpl.
      destruct (decide (p = q)) as [->|Hne].
      * rewrite decide_True by done. simpl. rewrite fmap_app, Hbucket.
        split; [done|]. split; [done|]. intros Hnot. destruct Hnot.
        apply elem_of_app. right. by left.
      * rewrite decide_False by done. rewrite Hbucket, app_nil_r.
        split; [done|]. rewrite Hnone, not_elem_of_app.
        split; [|by intros [? _]]. intros ?. split; [done|].
        by intros ->%list_elem_of_singleton.
Qed.

(** Integer keys in non-increasing order; other keys are not compared. *)
Definition key_ge (k1 k2 : key) : Prop :=
  ∀ z1 z2, k1 = KInt z1 → k2 = KInt z2 → (z2 ≤ z1)%Z.

Lemma mapM_key_int ks zs : mapM key_int ks = Some zs → ks = KInt <$> zs.
Proof.
  rewrite mapM_Some. induction 1 as [|k z ks zs Hk _ IH]; [done|].
  destruct k; try done. injection Hk as ->. by rewrite fmap_cons, IH.
Qed.

Lemma mapM_key_str ks ss : mapM key_str ks = Some ss → ks = KStr <$> ss.
Proof.
  rewrite mapM_Some. induction 1 as [|k z ks zs Hk _ IH]; [done|].
  destruct k; try done. injection Hk as ->. by rewrite fmap_cons, IH.
Qed.

Lemma sorted_reverse_spec ks l ks' :
  sorted_reverse ks = (l, Ok ks') →
  ks' ≡ₚ ks ∧ StronglySorted key_ge ks'.
Proof.
  unfold sorted_reverse, mret, M_ret.
  destruct (mapM key_int ks) as [zs|] eqn:Hint.
  - intros [= _ <-]. apply mapM_key_int in Hint as ->. split.
    + by rewrite merge_sort_Permutation.
    + assert (Transitive Z.ge) by (intros x y z; lia).
      assert (Total Z.ge) by (intros x y; lia).
      eapply StronglySorted_fmap; [|by apply StronglySorted_merge_sort].
      intros x y Hxy z1 z2 [= <-] [= <-]. lia.
  - destruct (mapM key_str ks) as [ss|] eqn:Hstr.
    + intros [= _ <-]. apply mapM_key_str in Hstr as ->. split.
      * by rewrite merge_sort_Permutation.
      * generalize (merge_sort (flip String.le) ss). intros sorted.
        induction sorted as [|s sorted IH]; csimpl; constructor; [done|].
        apply Forall_forall. by intros k _ z1 z2 [=].
    + case_bool_decide as Hlen; [|done]. intros [= _ <-]. split; [done|].
      destruct ks as [|k [|k' ks]]; simpl in Hlen; [| |lia];
        repeat constructor.
Qed.

Lemma elem_of_concat {B} (x : B) (ls : list (list B)) :
  x ∈ concat ls ↔ ∃ l, x ∈ l ∧ l ∈ ls.
Proof.
  induction ls as [|l ls IH]; cbn [concat].
  - split; [by intros ?%elem_of_nil|by intros (? & _ & ?%elem_of_nil)].
  - rewrite elem_of_app, IH. split.
    + intros [?|(l' & ? & ?)]; [exists l|exists l']; split; try done;
        [left|by right].
    + intros (l' & ? & [->|?]%elem_of_cons); [by left|right; eauto].
Qed.

Section flatten.
Context (items : list (key * dict)).

Let bucket (q : key) : list (key * dict) := filter (λ pc, pc.1 = q) items.

Lemma filter_bucket p q :
  filter (λ pc : key * dict, pc.1 = p) (bucket q)
  = if decide (p = q) then bucket q else [].
Proof.
  unfold bucket. induction items as [|pc rest IH]; simpl.
  - by destruct (decide (p = q)).
  - rewrite !filter_cons. destruct (decide (pc.1 = q)) as [Hq|Hq].
    + rewrite filter_cons, IH.
      destruct (decide (p = q)) as [->|Hne].
      * by rewrite decide_True.
      * rewrite decide_False; [done|]. congruence.
    + done.
Qed.

Lemma filter_flatten p ks :
  NoDup ks →
  filter (λ pc : key * dict, pc.1 = p) (concat (bucket <$> ks))
  = if decide (p ∈ ks) then bucket p else [].
Proof.
  induction 1 as [|q ks Hq Hnodup IH].
  - destruct (decide (p ∈ [])) as [?%elem_of_nil|]; done.
  - rewrite fmap_cons. cbn [concat].
    rewrite filter_app, filter_bucket, IH.
    destruct (decide (p = q)) as [->|Hne].
    + destruct (decide (q ∈ ks)); [done|].
      destruct (decide (q ∈ q :: ks)) as [|Hnot]; [by rewrite app_nil_r|].
      destruct Hnot. left.
    + destruct (decide (p ∈ ks)) as [Hin|Hnin].
      * destruct (decide (p ∈ q :: ks)) as [|Hnot]; [done|].
        destruct Hnot. by right.
      * destruct (decide (p ∈ q :: ks)) as [[?|?]%elem_of_cons|]; done.
Qed.

Lemma sorted_flatten ks :
  StronglySorted key_ge ks →
  StronglySorted (λ a b : key * dict, key_ge a.1 b.1) (concat (bucket <$> ks)).
Proof.
  induction 1 as [|q ks Hsorted IH Hq]; [constructor|].
  rewrite fmap_cons. cbn [concat].
  apply StronglySorted_app. split_and!; [|clear|done].
  - intros x1 x2 [Hx1 _]%list_elem_of_filter Hx2.
    apply elem_of_concat in Hx2 as (l' & Hx2 & Hl').
    apply list_elem_of_fmap in Hl' as (q' & -> & Hq').
    apply list_elem_of_filter in Hx2 as [Hx2 _].
    rewrite Hx1, Hx2. by eapply Forall_forall in Hq.
  - unfold bucket. induction items as [|pc rest IHitems]; [constructor|].
    rewrite filter_cons. destruct (decide (pc.1 = q)) as [Hpc|]; [|done].
    constructor; [done|]. apply Forall_forall.
    intros y [Hy _]%list_elem_of_filter z1 z2 H1 H2.
    rewrite Hpc in H1. rewrite Hy in H2. assert (z1 = z2) by congruence. lia.
Qed.
End flatten.

Lemma instantiate_built kw problem_type eval_metric model_cfgs acc l acc' :
  for_each (instantiate kw problem_type eval_metric) model_cfgs acc
    = (l, Ok acc') →
  ∃ ms, acc'.1.1 = acc.1.1 ++ ms ∧
        Forall2 (λ model_cfg m, ∃ used l',
                   model_factory model_cfg (kw_path kw) problem_type eval_metric
                     (kw_name_suffix kw) (kw_ensemble_type kw)
                     (kw_ensemble_kwargs kw) used (kw_level kw) = (l', Ok m))
                model_cfgs ms.
Proof.
  revert acc l. induction model_cfgs as [|model_cfg model_cfgs IH];
    intros acc l Hrun; cbn [for_each] in Hrun.
  - unfold mret, M_ret in Hrun. injection Hrun as _ <-.
    exists []. by rewrite app_nil_r.
  - apply bind_Ok in Hrun as (l1 & acc1 & l2 & Hinst & Hrun & ->).
    apply IH in Hrun as (ms & Hms & Hbuilt).
    destruct acc as [[models fit] used]. unfold instantiate in Hinst.
    apply bind_Ok in Hinst as (? & m & ? & Hmf & Hinst & _).
    apply bind_Ok in Hinst as (? & ag & ? & _ & Hinst & _).
    apply bind_Ok in Hinst as (? & [] & ? & _ & Hinst & _).
    unfold mret, M_ret in Hinst. injection Hinst as _ <-.
    exists (m :: ms). simpl in *. rewrite Hms, <-app_assoc. split; [done|].
    constructor; eauto.
Qed.

Lemma get_preset_models_stages problem_type eval_metric hyperparameters
    invalid_model_names kw l models model_args_fit :
  get_preset_models problem_type eval_metric hyperparameters
    invalid_model_names kw = (l, Ok (models, model_args_fit)) →
  ∃ l0 hp l1 v hp_level l2 buckets l3 model_cfgs l4 used,
    preprocessed kw hyperparameters = (l0, Ok hp) ∧
    select_level (kw_level kw) hp = (l1, Ok v) ∧
    filter_models v (kw_included_model_types kw) (kw_excluded_model_types kw)
      = VDict hp_level ∧
    for_each (add_model_type kw problem_type
                (resolve_default_priorities (kw_default_priorities kw) problem_type)
                hp_level) (dict_keys hp_level) [] = (l2, Ok buckets) ∧
    model_cfg_priority_list buckets = (l3, Ok model_cfgs) ∧
    for_each (instantiate kw problem_type eval_metric) model_cfgs
      ([], [], list_to_set (default [] invalid_model_names))
      = (l4, Ok (models, model_args_fit, used)).
Proof.
  unfold get_preset_models. intros Hrun.
  apply bind_Ok in Hrun as (l0 & hp & ? & Hpre & Hrun & _). cbv zeta in Hrun.
  destruct (negb _); [done|].
  apply bind_Ok in Hrun as (l1 & v & ? & Hlevel & Hrun & _).
  apply bind_Ok in Hrun as (? & hp_level & ? & Hdict & Hrun & _).
  apply bind_Ok in Hrun as (l2 & buckets & ? & Hbuckets & Hrun & _).
  apply bind_Ok in Hrun as (l3 & model_cfgs & ? & Hlist & Hrun & _).
  apply bind_Ok in Hrun as (? & [] & ? & _ & Hrun & _).
  apply bind_Ok in Hrun as (l4 & [[ms fit] used] & ? & Hloop & Hrun & _).
  unfold mret, M_ret in Hrun. injection Hrun as _ <- <-.
  destruct (filter_models v _ _) as [| | | | | |d] eqn:Hfilter; try done.
  unfold mret, M_ret in Hdict. injection Hdict as _ <-.
  exists l0, hp, l1, v, d, l2, buckets, l3, model_cfgs, l4, used. done.
Qed.

Lemma concat_fmap_snd {B C} (f : key → list (B * C)) (g : key → list C) ks :
  (∀ q, g q = (f q).*2) → concat (g <$> ks) = (concat (f <$> ks)).*2.
Proof.
  intros Hfg. induction ks as [|q ks IH]; [done|].
  rewrite !fmap_cons. cbn [concat]. by rewrite fmap_app, IH, Hfg.
Qed.

Lemma Forall2_elem_of_r {B C} (P : B → C → Prop) l k y :
  Forall2 P l k → y ∈ k → ∃ x, x ∈ l ∧ P x y.
Proof.
  induction 1 as [|x y' l k Hxy _ IH]; [by intros ?%elem_of_nil|].
  intros [->|Hin]%elem_of_cons.
  - exists x. split; [left|done].
  - destruct (IH Hin) as (x' & ? & ?). exists x'. split; [by right|done].
Qed.

Lemma filter_key_nil (items : list (key * dict)) p :
  p ∉ items.*1 → filter (λ pc : key * dict, pc.1 = p) items = [].
Proof.
  induction items as [|pc items IH]; [done|].
  rewrite fmap_cons, not_elem_of_cons, filter_cons. intros [Hne Hnin].
  destruct (decide (pc.1 = p)); [congruence|auto].
Qed.

(** C2.  When [get_preset_models] returns, its models were built, one by
    one and in this order, from a list [ordered] of configs paired with
    their priority keys such that: every earlier entry has an integer
    priority at least that of every later entry; and for each priority the
    entries of that priority are exactly the valid candidates of that
    priority in discovery order, the order in which the loops meet the
    model types of the level's (filtered) sub-mapping and the variants of
    each type. *)
Theorem priority_order (problem_type eval_metric : pyval) (hyperparameters : dict)
    (invalid_model_names : option (list string)) (kw : preset_kwargs)
    (l : list log_event) (models : list model) (model_args_fit : dict) :
  get_preset_models problem_type eval_metric hyperparameters
    invalid_model_names kw = (l, Ok (models, model_args_fit)) →
  ∃ hp_level outcomes ordered,
    (∃ l0 hp l1 v,
       preprocessed kw hyperparameters = (l0, Ok hp) ∧
       select_level (kw_level kw) hp = (l1, Ok v) ∧
       filter_models v (kw_included_model_types kw) (kw_excluded_model_types kw)
         = VDict hp_level) ∧
    Forall2 (resolves kw problem_type
               (resolve_default_priorities (kw_default_priorities kw) problem_type))
            (discovery_order hp_level) outcomes ∧
    Forall2 (λ pc m, ∃ used l',
               model_factory pc.2 (kw_path kw) problem_type eval_metric
                 (kw_name_suffix kw) (kw_ensemble_type kw)
                 (kw_ensemble_kwargs kw) used (kw_level kw) = (l', Ok m))
            ordered models ∧
    Forall (λ pc, priority_key pc.2 = Some pc.1) ordered ∧
    StronglySorted (λ a b, key_ge a.1 b.1) ordered ∧
    ∀ p, filter (λ pc, pc.1 = p) ordered
         = filter (λ pc, pc.1 = p) (omap id outcomes).
Proof.
  intros (l0 & hp & l1 & v & hp_level & l2 & buckets & l3 & model_cfgs & l4 & used
          & Hpre & Hlevel & Hfilter & Hbuckets & Hlist & Hloop)%get_preset_models_stages.
  apply add_model_types_outcomes in Hbuckets as (os & Hos & ->).
  destruct (buckets_spec os) as [Hnodup Hb].
  set (b := foldl (λ b o, push o b) [] os) in *.
  set (items := omap id os) in *.
  unfold model_cfg_priority_list in Hlist.
  apply bind_Ok in Hlist as (? & ks & ? & Hks & Hlist & _).
  unfold mret, M_ret in Hlist. injection Hlist as _ <-.
  apply sorted_reverse_spec in Hks as [Hperm Hsorted].
  set (ordered := concat ((λ q, filter (λ pc : key * dict, pc.1 = q) items) <$> ks)).
  assert (Hstable : ∀ p, filter (λ pc : key * dict, pc.1 = p) ordered
                         = filter (λ pc : key * dict, pc.1 = p) items).
  { intros p. unfold ordered. rewrite filter_flatten by by rewrite Hperm.
    destruct (decide (p ∈ ks)) as [|Hnin]; [done|].
    symmetry. apply filter_key_nil, Hb, dict_get_None. by rewrite <-Hperm. }
  exists hp_level, os, ordered.
  split_and!; [by eauto 7|done| | |by apply sorted_flatten|done].
  - apply instantiate_built in Hloop as (ms & Hms & Hbuilt).
    simpl in Hms. subst ms.
    rewrite (concat_fmap_snd
               (λ q, filter (λ pc : key * dict, pc.1 = q) items)) in Hbuilt.
    + by apply Forall2_fmap_l in Hbuilt.
    + intros q. destruct (Hb q) as [<- _].
      rewrite <-list_fmap_compose. by rewrite list_fmap_id.
  - apply Forall_forall. intros pc Hpc.
    assert (pc ∈ items) as Hitem.
    { assert (pc ∈ filter (λ pc' : key * dict, pc'.1 = pc.1) ordered) as Hin
        by by apply list_elem_of_filter.
      rewrite Hstable in Hin. by apply list_elem_of_filter in Hin as [_ ?]. }
    apply list_elem_of_omap in Hitem as (o & Ho & Hsome). simpl in Hsome. subst o.
    destruct (Forall2_elem_of_r _ _ _ _ Hos Ho) as (d & _ & _ & Hprio).
    destruct pc as [p model_cfg]. by apply Hprio.
Qed.

(** ** The soft-classification entry point *)

Lemma dict_get_filter_key {V} k (d : list (key * V)) :
  dict_get k (List.filter (λ kv, bool_decide (kv.1 = k)) d) = dict_get k d.
Proof.
  induction d as [|[k' v] d IH]; [done|]. cbn [List.filter fst dict_get].
  case_bool_decide as Hk; cbn [dict_get].
  - subst k'. by destruct (decide (k = k)).
  - destruct (decide (k = k')); [congruence|apply IH].
Qed.

(** C9 (the code departs from it).  When the value stored under ["RF"] is
    a bare variant, a non-empty mapping that has no key [0], which
    [get_preset_models] accepts as a one-element list of variants (lines
    116-117), [get_preset_models_softclass] indexes it like a list at
    line 360 and raises [KeyError: 0]; no criterion is rewritten and no
    model is produced. *)
Theorem softclass_bare_rf_variant (hyperparameters : dict)
    (invalid_model_names : option (list string)) (kw : preset_kwargs)
    (variant : dict) :
  dict_get (KStr "RF") hyperparameters = Some (VDict variant) →
  variant ≠ [] →
  dict_get (KInt 0) variant = None →
  get_preset_models_softclass hyperparameters invalid_model_names kw
    = ([], Err (KeyError (VInt 0))).
Proof.
  intros Hrf Hne Hzero. unfold get_preset_models_softclass. cbv zeta.
  rewrite dict_get_filter_key, Hrf.
  destruct variant as [|kv variant]; [done|].
  unfold py_len. rewrite bind_ret. cbn [length seq for_each update_at].
  change (Z.of_nat 0) with 0%Z. by rewrite Hzero.
Qed.

End properties.

(** * The theorems on explicit inputs *)

Definition example_variant : pyval :=
  VDict [(KStr "ag_args", VDict [(KStr "c", VInt 5)])].

Definition example_global_ag_args : dict :=
  [(KStr "b", VInt 3); (KStr "c", VInt 4)].

(** C1, as the claim states it, fails: with registry defaults [{a:1,b:2}]
    (the class registered as [LAYERED]), global override [{b:3,c:4}] and
    variant ag-args [{c:5}], [clean_model_cfg] resolves the bundle to
    [{a:1,b:3,c:5,model_type:<class 2>}], which differs from [{a:1,b:3,c:5}]
    both as a list of items and under Python's [==]. *)
Lemma merge_precedence_counterexample :
  @clean_model_cfg (example_registry "1.2.0") example_variant (KStr "LAYERED")
    (Some example_global_ag_args) None None BINARY
  = ([], Ok [(KStr "ag_args",
              VDict [(KStr "a", VInt 1); (KStr "b", VInt 3); (KStr "c", VInt 5);
                     (KStr "model_type", VCls 2)])]) ∧
  py_eq (VDict [(KStr "a", VInt 1); (KStr "b", VInt 3); (KStr "c", VInt 5);
                (KStr "model_type", VCls 2)])
        (VDict [(KStr "a", VInt 1); (KStr "b", VInt 3); (KStr "c", VInt 5)])
  = false.
Proof. split; reflexivity. Qed.

Lemma merge_precedence_witness :
  ∃ c, dict_get AG_ARGS
         [(KStr "ag_args",
           VDict [(KStr "a", VInt 1); (KStr "b", VInt 3); (KStr "c", VInt 5);
                  (KStr "model_type", VCls 2)])]
       = Some (VDict [(KStr "a", VInt 1); (KStr "b", VInt 3); (KStr "c", VInt 5);
                      (KStr "model_type", VCls c)]).
Proof.
  destruct (@merge_precedence (example_registry "1.2.0") example_variant
              (KStr "LAYERED") (Some example_global_ag_args) None None BINARY []
              [(KStr "ag_args",
                VDict [(KStr "a", VInt 1); (KStr "b", VInt 3); (KStr "c", VInt 5);
                       (KStr "model_type", VCls 2)])]
              eq_refl)
    as (l0 & d & l1 & c & Hverify & Hresolve & _ & Hexample).
  injection Hverify as _ <-. vm_compute in Hresolve.
  injection Hresolve as _ <-. exists 2. by apply Hexample.
Defined.

Lemma verify_model_cfg_cases_witness :
  @_verify_model_cfg (example_registry "1.2.0") (VStr "GBMLarge") (KStr "GBM")
  = ([Warning_deprecated "GBMLarge is deprecated"],
     Ok [(KStr "learning_rate", VStr "0.03"); (KStr "num_leaves", VInt 128)]) ∧
  @_verify_model_cfg (example_registry "1.3.0") (VStr "GBMLarge") (KStr "GBM")
  = ([], Err (AssertionError
                (InvalidModelHyperparameters (KStr "GBM") (VStr "GBMLarge")
                   (newline +:+ "GBMLarge is deprecated")))) ∧
  @_verify_model_cfg (example_registry "1.2.0") (VInt 3) (KStr "GBM")
  = ([], Err (AssertionError
                (InvalidModelHyperparameters (KStr "GBM") (VInt 3) ""))).
Proof.
  split_and!.
  - exact (proj1 (proj2 (proj2
      (@verify_model_cfg_cases (example_registry "1.2.0") (VStr "GBMLarge")
         (KStr "GBM")))) eq_refl).
  - exact (proj1 (proj2 (proj2
      (@verify_model_cfg_cases (example_registry "1.3.0") (VStr "GBMLarge")
         (KStr "GBM")))) eq_refl).
  - apply (proj1 (proj2
      (@verify_model_cfg_cases (example_registry "1.2.0") (VInt 3) (KStr "GBM")))).
    + by intros [d Hd].
    + done.
Defined.




Definition example_not_base_ag_args : dict :=
  [(KStr "model_type", VCls 0); (KStr "valid_base", VBool false)].

Definition example_not_stacker_ag_args : dict :=
  [(KStr "model_type", VCls 0); (KStr "valid_stacker", VBool false)].

Lemma level_eligibility_gating_witness :
  (∃ l, is_model_cfg_valid
          [(KStr "ag_args", VDict example_not_base_ag_args)] 1 BINARY
        = (l, Ok false)) ∧
  (∃ l, is_model_cfg_valid
          [(KStr "ag_args", VDict example_not_base_ag_args)] 2 BINARY
        = (l, Ok true)) ∧
  (∃ l, is_model_cfg_valid
          [(KStr "ag_args", VDict example_not_stacker_ag_args)] 2 BINARY
        = (l, Ok false)) ∧
  (∃ l, is_model_cfg_valid
          [(KStr "ag_args", VDict example_not_stacker_ag_args)] 1 BINARY
        = (l, Ok true)).
Proof.
  assert (other_conditions_hold example_not_base_ag_args BINARY) as Hbase.
  { split_and!; [reflexivity..|]. right. reflexivity. }
  assert (other_conditions_hold example_not_stacker_ag_args BINARY) as Hstacker.
  { split_and!; [reflexivity..|]. right. reflexivity. }
  split_and!.
  - apply (proj1 (level_eligibility_gating
                    [(KStr "ag_args", VDict example_not_base_ag_args)]
                    example_not_base_ag_args 1 BINARY eq_refl Hbase));
      reflexivity.
  - apply (proj1 (level_eligibility_gating
                    [(KStr "ag_args", VDict example_not_base_ag_args)]
                    example_not_base_ag_args 2 BINARY eq_refl Hbase));
      reflexivity.
  - apply (proj2 (level_eligibility_gating
                    [(KStr "ag_args", VDict example_not_stacker_ag_args)]
                    example_not_stacker_ag_args 2 BINARY eq_refl Hstacker));
      reflexivity.
  - apply (proj2 (level_eligibility_gating
                    [(KStr "ag_args", VDict example_not_stacker_ag_args)]
                    example_not_stacker_ag_args 1 BINARY eq_refl Hstacker));
      reflexivity.
Defined.

Definition example_levels : dict :=
  [(KInt 1, VDict [(KStr "GBM", VDict [])]);
   (KStr "default", VDict [(KStr "RF", VDict [])])].

Lemma level_selection_witness :
  select_level 1 example_levels = mret (VDict [(KStr "GBM", VDict [])]) ∧
  select_level 2 example_levels = mret (VDict [(KStr "RF", VDict [])]) ∧
  select_level 1 [(KStr "GBM", VDict [])]
  = mret (VDict [(KStr "GBM", VDict [])]).
Proof.
  split_and!.
  - exact (proj1 (level_selection 1 example_levels) _ eq_refl).
  - exact (proj1 (proj2 (level_selection 2 example_levels)) _ eq_refl eq_refl).
  - apply (proj2 (proj2 (level_selection 1 [(KStr "GBM", VDict [])]))).
    intros k ->%list_elem_of_singleton [[z [=]]|[=]].
Defined.

Lemma unsupported_problem_type_first_witness :
  @get_preset_models (example_registry "1.2.0") (VStr "ranking") VNone
    [(KStr "GBM", VStr "not a mapping")] None example_kwargs
  = ([], Err NotImplementedError).
Proof.
  refine (@unsupported_problem_type_first (example_registry "1.2.0")
            (VStr "ranking") VNone [(KStr "GBM", VStr "not a mapping")] None
            example_kwargs _).
  intros Hin. repeat (apply elem_of_cons in Hin as [[=]|Hin]).
  by apply elem_of_nil in Hin.
Defined.

(** C7, as the claim states it, fails: the preprocessing of lines 90-94
    runs before the check of line 95.  With a level that is not a mapping
    and a problem type outside the five kinds, the error of
    [process_hyperparameters] comes first and [NotImplementedError] is not
    raised. *)
Lemma unsupported_problem_type_first_counterexample :
  (VStr "ranking" ∉ [BINARY; MULTICLASS; REGRESSION; SOFTCLASS; QUANTILE]) ∧
  @get_preset_models (example_registry "1.2.0") (VStr "ranking") VNone
    [(KStr "default", VInt 5)] None example_kwargs
  = ([], Err AttributeError) ∧
  @get_preset_models (example_registry "1.2.0") (VStr "ranking") VNone
    [(KStr "default", VInt 5)] None example_kwargs
  ≠ ([], Err NotImplementedError).
Proof.
  split_and!; [|reflexivity|done].
  intros Hin. repeat (apply elem_of_cons in Hin as [[=]|Hin]).
  by apply elem_of_nil in Hin.
Qed.

(** One run: a random forest, a default LightGBM and a LightGBM variant
    with an explicit priority, at level 1 of a binary problem. *)
Definition example_hyperparameters : dict :=
  [(KStr "RF", VList [VDict []]);
   (KStr "GBM",
    VList [VDict [];
           VDict [(KStr "ag_args", VDict [(KStr "priority", VInt 100)])]])].

Definition example_models : list model :=
  Eval vm_compute in
    match (@get_preset_models (example_registry "1.2.0") BINARY VNone
             example_hyperparameters (Some ["LightGBM"]) example_kwargs).2 with
    | Ok (models, _) => models
    | Err _ => []
    end.

Lemma example_run :
  @get_preset_models (example_registry "1.2.0") BINARY VNone
    example_hyperparameters (Some ["LightGBM"]) example_kwargs
  = ([], Ok (example_models, [])).
Proof. vm_compute. reflexivity. Qed.

Lemma example_models_names :
  name <$> example_models = ["LightGBM_2"; "LightGBM_3"; "RandomForest"].
Proof. reflexivity. Qed.

Lemma priority_order_witness :
  ∃ ordered,
    Forall2 (λ pc m, ∃ used l',
               @model_factory (example_registry "1.2.0") pc.2
                 (kw_path example_kwargs) BINARY VNone
                 (kw_name_suffix example_kwargs) (kw_ensemble_type example_kwargs)
                 (kw_ensemble_kwargs example_kwargs) used
                 (kw_level example_kwargs) = (l', Ok m))
            ordered example_models ∧
    StronglySorted (λ a b, key_ge a.1 b.1) ordered.
Proof.
  destruct (@priority_order (example_registry "1.2.0") BINARY VNone
              example_hyperparameters (Some ["LightGBM"]) example_kwargs []
              example_models [] example_run)
    as (hp_level & outcomes & ordered & _ & _ & Hbuilt & _ & Hsorted & _).
  by exists ordered.
Defined.

Lemma names_unique_witness :
  NoDup (name <$> example_models) ∧
  ∀ m, m ∈ example_models → name m ∉ ["LightGBM"].
Proof.
  destruct (@names_unique (example_registry "1.2.0") BINARY VNone
              example_hyperparameters (Some ["LightGBM"]) example_kwargs []
              example_models [] example_run)
    as (Hnodup & Hexcluded & _).
  by split.
Defined.

Lemma softclass_bare_rf_variant_witness :
  @get_preset_models_softclass (example_registry "1.2.0")
    [(KStr "RF", VDict [(KStr "criterion", VStr "entropy")])] None example_kwargs
  = ([], Err (KeyError (VInt 0))).
Proof.
  by apply (@softclass_bare_rf_variant (example_registry "1.2.0") _ None
              example_kwargs [(KStr "criterion", VStr "entropy")]).
Defined.

(** The sibling path on the same bare variant: [get_preset_models] builds
    the random forest. *)
Lemma get_preset_models_bare_rf_variant :
  ∃ m, @get_preset_models (example_registry "1.2.0") SOFTCLASS VNone
         [(KStr "RF", VDict [(KStr "criterion", VStr "entropy")])] None
         example_kwargs = ([], Ok ([m], [])) ∧
       name m = "RandomForest".
Proof. eexists. split; reflexivity. Qed.

(** A bare empty variant has no item, so line 361 turns it into the empty
    list: the random forest is dropped without a word and, being alone, the
    call ends in the error about missing model types. *)
Lemma softclass_bare_empty_rf_variant :
  @get_preset_models_softclass (example_registry "1.2.0")
    [(KStr "RF", VDict [])] None example_kwargs
  = ([], Err (ValueError softclass_no_models)).
Proof. reflexivity. Qed.


(** * Further properties of the module *)

Section more_properties.
Context `{Collaborators}.

Lemma for_each_ext {A St : Type} (f g : St → A → M St) xs s :
  (∀ s x, f s x = g s x) → for_each f xs s = for_each g xs s.
Proof.
  intros Hfg. revert s. induction xs as [|x xs IH]; intros s; [done|].
  cbn [for_each]. rewrite Hfg. destruct (g s x) as [l [s'|e]]; [|done].
  unfold mbind, M_bind. by rewrite IH.
Qed.

Lemma for_each_app {A St : Type} (f : St → A → M St) xs ys s :
  for_each f (xs ++ ys) s = for_each f xs s ≫= for_each f ys.
Proof.
  revert s. induction xs as [|x xs IH]; intros s.
  - cbn [for_each app]. by rewrite bind_ret.
  - cbn [for_each app]. destruct (f s x) as [l [s'|e]]; [|done].
    unfold mbind, M_bind. rewrite IH.
    destruct (for_each f xs s') as [l1 [s1|e1]]; [|done].
    unfold mbind, M_bind. destruct (for_each f ys s1) as [l2 r2].
    by rewrite app_assoc.
Qed.

(** ** Bare variants *)

(** Every value of a level mapping written as a list of variants. *)
Definition as_variant_lists (hp_level : dict) : dict :=
  (λ kv, (kv.1, VList (variants_of kv.2))) <$> hp_level.

Lemma dict_get_as_variant_lists k hp_level :
  dict_get k (as_variant_lists hp_level)
  = (λ v, VList (variants_of v)) <$> dict_get k hp_level.
Proof.
  unfold as_variant_lists. induction hp_level as [|[k' v] d IH]; [done|].
  rewrite fmap_cons. cbn [dict_get fst snd].
  by destruct (decide (k = k')).
Qed.

Lemma dict_keys_as_variant_lists hp_level :
  dict_keys (as_variant_lists hp_level) = dict_keys hp_level.
Proof.
  unfold dict_keys, as_variant_lists. rewrite <-list_fmap_compose.
  by apply list_fmap_ext.
Qed.

(** The candidate loop of lines 113-137 cannot tell a bare variant from the
    one-element list holding it: run on a level mapping and on the same
    mapping with every value written as a list, it logs the same, raises the
    same and fills the priority buckets the same. *)
Theorem bare_variant_as_singleton_list (kw : preset_kwargs) (problem_type : pyval)
    (default_priorities hp_level : dict) (buckets : list (key * list dict)) :
  for_each (add_model_type kw problem_type default_priorities
              (as_variant_lists hp_level))
           (dict_keys (as_variant_lists hp_level)) buckets
  = for_each (add_model_type kw problem_type default_priorities hp_level)
             (dict_keys hp_level) buckets.
Proof.
  rewrite dict_keys_as_variant_lists. apply for_each_ext.
  intros b model_type. unfold add_model_type, dict_getitem.
  rewrite dict_get_as_variant_lists.
  destruct (dict_get model_type hp_level) as [v|]; [|done].
  cbn [fmap option_fmap option_map]. rewrite !bind_ret. by destruct v.
Qed.

(** ** The names that are allocated *)

(** In the plain path (lines 298-301) the name is the base name followed by
    the global suffix when that is free; otherwise it carries [_k] for the
    least [k] from 2 on whose name is free. *)
Theorem first_free_name (ag : dict) (name_orig : pyval)
    (name_suffix : option string) (used : gset string) (level : Z) :
  ∃ name_,
    allocate_name ag name_orig name_suffix false used level
      = mret (VStr name_, None) ∧
    ((((fmt name_orig +:+ default "" name_suffix) ∉ used) ∧
      name_ = fmt name_orig +:+ default "" name_suffix) ∨
     ((fmt name_orig +:+ default "" name_suffix) ∈ used ∧
      ∃ k, (2 ≤ k)%Z ∧
           name_ = numbered_name name_orig (default "" name_suffix) k ∧
           (name_ ∉ used) ∧
           ∀ j, (2 ≤ j < k)%Z →
                numbered_name name_orig (default "" name_suffix) j ∈ used)).
Proof.
  unfold allocate_name. cbv zeta.
  destruct (while_in_use_terminates id
              (numbered_name name_orig (default "" name_suffix))
              used (numbered_name_inj _ _)
              (fmt name_orig +:+ default "" name_suffix) 2)
    as (r & Hloop & Hfree & Hwhich).
  rewrite Hloop, bind_ret. exists r. split; [done|].
  destruct Hwhich as [->|(Hin & k & Hk & -> & Hbefore)]; [by left|].
  right. split; [done|]. by exists k.
Qed.

(** In the ensembled path (lines 303-309) only the stacker name is tested.
    When [<name><bag suffix>_L<level><suffix>] is free the inner name stays
    as it was; otherwise the inner name becomes [<name>_k] and the stacker
    name is rebuilt from it, for the least [k] from 2 on whose stacker name
    is free. *)
Theorem lockstep_stacker_name (ag : dict) (name_orig : pyval)
    (name_suffix : option string) (used : gset string) (level : Z) :
  let bag := dict_get_default (KStr "name_bag_suffix") (VStr "_BAG") ag in
  let suffix := default "" name_suffix in
  ∃ name_ name_stacker,
    allocate_name ag name_orig name_suffix true used level
      = mret (name_, Some name_stacker) ∧
    name_stacker = stacker_name name_ bag level suffix ∧
    (name_stacker ∉ used) ∧
    (name_ = name_orig ∨
     (stacker_name name_orig bag level suffix ∈ used ∧
      ∃ k, (2 ≤ k)%Z ∧
           name_ = VStr (fmt name_orig +:+ "_" +:+ pretty k) ∧
           ∀ j, (2 ≤ j < k)%Z →
                (numbered_stacker name_orig bag level suffix j).2 ∈ used)).
Proof.
  intros bag suffix. unfold allocate_name. cbv zeta. fold bag suffix.
  destruct (while_in_use_terminates snd
              (numbered_stacker name_orig bag level suffix)
              used (numbered_stacker_inj _ _ _ _)
              (name_orig, stacker_name name_orig bag level suffix) 2)
    as (r & Hloop & Hfree & Hwhich).
  rewrite Hloop, bind_ret. exists r.1, r.2. split; [done|].
  destruct Hwhich as [->|(Hin & k & Hk & -> & Hbefore)].
  - split_and!; [done..|by left].
  - split_and!; [done..|]. right. split; [done|]. by exists k.
Qed.

(** ** Unknown ag-args keys *)

Lemma validity_chain_silent ag level problem_type :
  (validity_chain ag level problem_type).1 = [].
Proof.
  unfold validity_chain.
  repeat (match goal with |- context [if ?b then _ else _] => destruct b end;
          try done).
  unfold py_contains. repeat (case_match; try done).
Qed.

Lemma validity_chain_unknown_key ag k v level problem_type :
  k ∉ VALID_AG_ARGS_KEYS →
  validity_chain (dict_set k v ag) level problem_type
  = validity_chain ag level problem_type.
Proof.
  intros Hk. unfold validity_chain, dict_get_default.
  assert (∀ s, KStr s ∈ VALID_AG_ARGS_KEYS →
               dict_get (KStr s) (dict_set k v ag) = dict_get (KStr s) ag) as Hget.
  { intros s Hs. apply dict_get_set_ne. by intros <-. }
  rewrite !Hget; [done|unfold VALID_AG_ARGS_KEYS; set_solver..].
Qed.

(** A key outside [VALID_AG_ARGS_KEYS] that is added to the ag-args costs
    one more warning, logged after the others, and changes nothing else:
    the verdict of [is_model_cfg_valid], or the exception it raises, is the
    same as without the key. *)
Theorem unknown_key_only_warns (model_cfg ag : dict) (k : key) (v : pyval)
    (level : Z) (problem_type : pyval) (l : list log_event) (r : result bool) :
  k ∉ VALID_AG_ARGS_KEYS →
  dict_get AG_ARGS model_cfg = Some (VDict ag) →
  dict_get k ag = None →
  is_model_cfg_valid model_cfg level problem_type = (l, r) →
  is_model_cfg_valid (dict_set AG_ARGS (VDict (dict_set k v ag)) model_cfg)
    level problem_type
  = (l ++ [Warning_unknown_ag_args_key k], r).
Proof.
  intros Hk Hag Hfresh. unfold is_model_cfg_valid.
  rewrite Hag, dict_get_set_eq.
  destruct (warn_unknown_keys_Ok ag) as [w Hw].
  pose proof (validity_chain_silent ag level problem_type) as Hsilent.
  destruct (validity_chain ag level problem_type) as [l' r'] eqn:Hchain.
  simpl in Hsilent. subst l'.
  rewrite (bind_eq _ _ _ _ Hw). cbn [fst snd]. intros [= <- <-].
  assert (warn_unknown_keys (dict_set k v ag)
          = (w ++ [Warning_unknown_ag_args_key k], Ok ())) as Hw'.
  { unfold warn_unknown_keys in *. rewrite dict_keys_set, Hfresh, for_each_app.
    eapply bind_step; [exact Hw|]. cbn [for_each].
    rewrite bool_decide_eq_false_2 by done. done. }
  rewrite (bind_eq _ _ _ _ Hw'), validity_chain_unknown_key, Hchain by done.
  cbn [fst snd]. by rewrite !app_nil_r.
Qed.

(** ** What [clean_model_cfg] does to the rest of a variant *)

Lemma update_pair_silent i item : (update_pair i item).1 = [].
Proof.
  unfold update_pair. destruct (py_iter item) as [[|k [|v [|]]]|]; try done.
  by destruct (to_key k).
Qed.

Lemma update_pairs_silent i items : (update_pairs i items).1 = [].
Proof.
  revert i. induction items as [|item items IH]; intros i; [done|].
  cbn [update_pairs]. pose proof (update_pair_silent i item) as Hpair.
  destruct (update_pair i item) as [l [kv|e]]; simpl in Hpair; subst l; [|done].
  rewrite (bind_eq _ _ _ _ eq_refl). cbn [app fst].
  specialize (IH (S i)).
  destruct (update_pairs (S i) items) as [l [rest|e]]; simpl in IH; by subst l.
Qed.

Lemma update_items_Ok v l d : update_items v = (l, Ok d) → update_items v = mret d.
Proof.
  intros Hv. assert ((update_items v).1 = []) as Hsilent.
  { unfold update_items. destruct v; try done;
      cbn [py_iter]; apply update_pairs_silent. }
  rewrite Hv in Hsilent. simpl in Hsilent. by subst l.
Qed.

Lemma update_pairs_of_items i (items : dict) :
  update_pairs i ((λ kv, VList [of_key kv.1; kv.2]) <$> items) = mret items.
Proof.
  revert i. induction items as [|[k v] items IH]; intros i; [done|].
  rewrite fmap_cons. cbn [update_pairs update_pair py_iter fst snd].
  assert (to_key (of_key k) = Some k) as -> by by destruct k.
  by rewrite bind_ret, IH, bind_ret.
Qed.

(** One merge step of lines 200-203, 204-209 and 213-215 on the value
    found under a reserved key.  With a bundle to merge, the result is the
    bundle updated with the items that [dict.update] reads from the value
    found (from the empty mapping when the key is absent); without one,
    the value stays as it was, absent included. *)
Definition layered (extra : option dict) (current result : option pyval) : Prop :=
  match extra with
  | Some g =>
      ∃ own, update_items (default (VDict []) current) = mret own ∧
             result = Some (VDict (dict_update g own))
  | None => result = current
  end.

Lemma clean_model_cfg_layers model_cfg model_type ag_args ag_args_ensemble
    ag_args_fit problem_type l cleaned :
  clean_model_cfg model_cfg model_type ag_args ag_args_ensemble ag_args_fit
    problem_type = (l, Ok cleaned) →
  ∃ l0 d l1 c merged,
    _verify_model_cfg model_cfg model_type = (l0, Ok d) ∧
    resolve_model_type
      (dict_get_default (KStr "model_type") (of_key model_type) (own_ag_args d))
      = (l1, Ok c) ∧
    layered ag_args_ensemble (dict_get AG_ARGS_ENSEMBLE d) merged ∧
    layered (cls_default_ag_args_ensemble (class_table c) problem_type)
      merged (dict_get AG_ARGS_ENSEMBLE cleaned) ∧
    layered ag_args_fit (dict_get AG_ARGS_FIT d) (dict_get AG_ARGS_FIT cleaned) ∧
    ∀ k, k ≠ AG_ARGS → k ≠ AG_ARGS_ENSEMBLE → k ≠ AG_ARGS_FIT →
         dict_get k cleaned = dict_get k d.
Proof.
  unfold clean_model_cfg. intros Hclean.
  apply bind_Ok in Hclean as (l0 & d & ? & Hverify & Hclean & _).
  exists l0, d. cbv zeta in Hclean.
  set (cfg0 := if dict_mem AG_ARGS d then d else dict_set AG_ARGS (VDict []) d)
    in *.
  assert (Hcfg0 : ∀ k, k ≠ AG_ARGS → dict_get k cfg0 = dict_get k d).
  { intros k Hk. unfold cfg0. destruct (dict_mem AG_ARGS d); [done|].
    by rewrite dict_get_set_ne. }
  apply bind_Ok in Hclean as (? & ag & ? & Hag & Hclean & _).
  apply dict_getitem_as_dict_Ok in Hag.
  assert (ag = own_ag_args d) as ->.
  { unfold own_ag_args. unfold cfg0 in Hag.
    destruct (dict_mem AG_ARGS d) eqn:Hmem.
    - by rewrite Hag.
    - rewrite dict_get_set_eq in Hag. apply dict_mem_false in Hmem.
      rewrite Hmem. congruence. }
  clear Hag.
  apply bind_Ok in Hclean as (? & mt & ? & [Hmt _]%dict_getitem_Ok & Hclean & _).
  assert (mt = dict_get_default (KStr "model_type") (of_key model_type)
                 (own_ag_args d)) as ->.
  { unfold dict_get_default.
    destruct (dict_mem (KStr "model_type") (own_ag_args d)) eqn:Hmem.
    - by rewrite Hmt.
    - apply dict_mem_false in Hmem. rewrite Hmem.
      rewrite dict_get_set_eq in Hmt. by injection Hmt. }
  clear Hmt.
  destruct (is_none _); [done|].
  apply bind_Ok in Hclean as (l1 & c & ? & Hresolve & Hclean & _).
  exists l1, c. rewrite !dict_set_set in Hclean.
  set (cfg3 := dict_set AG_ARGS _ cfg0) in Hclean.
  assert (Hcfg3 : ∀ k, k ≠ AG_ARGS → dict_get k cfg3 = dict_get k d).
  { intros k Hk. unfold cfg3. by rewrite dict_get_set_ne, Hcfg0. }
  clearbody cfg3. clear Hcfg0 cfg0.
  apply bind_Ok in Hclean as (? & cfg4 & ? & Hens & Hclean & _).
  exists (dict_get AG_ARGS_ENSEMBLE cfg4). split; [done|]. split; [done|].
  assert (Hcfg4 : layered ag_args_ensemble (dict_get AG_ARGS_ENSEMBLE d)
                    (dict_get AG_ARGS_ENSEMBLE cfg4)
                  ∧ ∀ k, k ≠ AG_ARGS → k ≠ AG_ARGS_ENSEMBLE →
                         dict_get k cfg4 = dict_get k d).
  { destruct ag_args_ensemble as [g|]; cbn [layered].
    - apply bind_Ok in Hens as (? & own & ? & Hown%update_items_Ok & [= _ <-] & _).
      unfold dict_get_default in Hown. rewrite Hcfg3 in Hown by done.
      split.
      + exists own. by rewrite dict_get_set_eq.
      + intros k ??. by rewrite dict_get_set_ne, Hcfg3.
    - unfold mret, M_ret in Hens. injection Hens as _ <-.
      split; [by apply Hcfg3|]. intros k ??. by apply Hcfg3. }
  clear Hens Hcfg3. destruct Hcfg4 as [Hens4 Hcfg4]. split; [done|].
  apply bind_Ok in Hclean as (? & cfg5 & ? & Hfit & Hclean & _).
  assert (Hcfg5 : layered ag_args_fit (dict_get AG_ARGS_FIT d)
                    (dict_get AG_ARGS_FIT cfg5)
                  ∧ dict_get AG_ARGS_ENSEMBLE cfg5 = dict_get AG_ARGS_ENSEMBLE cfg4
                  ∧ ∀ k, k ≠ AG_ARGS → k ≠ AG_ARGS_ENSEMBLE → k ≠ AG_ARGS_FIT →
                         dict_get k cfg5 = dict_get k d).
  { destruct ag_args_fit as [g|]; cbn [layered].
    - apply bind_Ok in Hfit as (? & own & ? & Hown & [= _ <-] & _).
      apply bind_Ok in Hown
        as (? & v & ? & [Hv _]%dict_getitem_Ok & Hown%update_items_Ok & _).
      split_and!.
      + exists own. rewrite dict_get_set_eq. split; [|done].
        destruct (dict_mem AG_ARGS_FIT cfg4) eqn:Hmem.
        * rewrite Hcfg4 in Hv by done. by rewrite Hv.
        * apply dict_mem_false in Hmem. rewrite Hcfg4 in Hmem by done.
          rewrite Hmem. rewrite dict_get_set_eq in Hv. by injection Hv as <-.
      + rewrite dict_get_set_ne by done.
        destruct (dict_mem AG_ARGS_FIT cfg4); [done|].
        by rewrite dict_get_set_ne.
      + intros k ???. rewrite dict_get_set_ne by done.
        destruct (dict_mem AG_ARGS_FIT cfg4); [by apply Hcfg4|].
        rewrite dict_get_set_ne by done. by apply Hcfg4.
    - unfold mret, M_ret in Hfit. injection Hfit as _ <-.
      split_and!; [by apply Hcfg4|done|]. intros k ???. by apply Hcfg4. }
  clear Hfit Hcfg4. destruct Hcfg5 as (Hfit5 & Hens5 & Hcfg5).
  rewrite <-Hens5. clear Hens4 Hens5.
  apply bind_Ok in Hclean as (? & merged & ? & _ & Hclean & _).
  set (final := match cls_default_ag_args _ with Some _ => _ | None => _ end)
    in Hclean.
  assert (Hfinal : ∀ k, k ≠ AG_ARGS → dict_get k final = dict_get k cfg5).
  { intros k Hk. unfold final.
    destruct (cls_default_ag_args (class_table c)); [|done].
    by rewrite dict_get_set_ne. }
  clearbody final.
  destruct (cls_default_ag_args_ensemble _ _) as [dflt|]; cbn [layered].
  - apply bind_Ok in Hclean as (? & own & ? & Hown%update_items_Ok & [= _ <-] & _).
    unfold dict_get_default in Hown. rewrite Hfinal in Hown by done.
    split_and!.
    + exists own. by rewrite dict_get_set_eq.
    + by rewrite dict_get_set_ne, Hfinal.
    + intros k ???. rewrite dict_get_set_ne, Hfinal by done. by apply Hcfg5.
  - unfold mret, M_ret in Hclean. injection Hclean as _ <-.
    split_and!.
    + by rewrite Hfinal.
    + by rewrite Hfinal.
    + intros k ???. rewrite Hfinal by done. by apply Hcfg5.
Qed.

(** [clean_model_cfg] leaves the model's own hyperparameters alone: every
    key of the verified variant other than the three reserved sub-mappings
    has the same value (or is as absent) in the cleaned config. *)
Theorem hyperparameters_untouched (model_cfg : pyval) (model_type : key)
    (ag_args ag_args_ensemble ag_args_fit : option dict) (problem_type : pyval)
    (l : list log_event) (cleaned : dict) :
  clean_model_cfg model_cfg model_type ag_args ag_args_ensemble ag_args_fit
    problem_type = (l, Ok cleaned) →
  ∃ l0 d,
    _verify_model_cfg model_cfg model_type = (l0, Ok d) ∧
    ∀ k, k ≠ AG_ARGS → k ≠ AG_ARGS_ENSEMBLE → k ≠ AG_ARGS_FIT →
         dict_get k cleaned = dict_get k d.
Proof.
  intros (l0 & d & _ & _ & _ & Hverify & _ & _ & _ & _ & Hrest)%clean_model_cfg_layers.
  by exists l0, d.
Qed.

(** The ensemble and the fit sub-mappings are merged like the ag-args
    (lines 199-215): the resolved ensemble bundle is the class's default
    ensemble bundle updated with the caller's bundle updated with the
    variant's own; the resolved fit bundle is the caller's bundle updated
    with the variant's own.  A layer that is [None] is skipped, and with no
    layer at all the key stays as the variant had it, absent included.
    The variant's own value goes through [dict.update], which takes the
    items of a mapping as they are and reads a list of key/value pairs as
    those pairs. *)
Theorem ensemble_and_fit_layers (model_cfg : pyval) (model_type : key)
    (ag_args ag_args_ensemble ag_args_fit : option dict) (problem_type : pyval)
    (l : list log_event) (cleaned : dict) :
  clean_model_cfg model_cfg model_type ag_args ag_args_ensemble ag_args_fit
    problem_type = (l, Ok cleaned) →
  (∃ l0 d l1 c merged,
     _verify_model_cfg model_cfg model_type = (l0, Ok d) ∧
     resolve_model_type
       (dict_get_default (KStr "model_type") (of_key model_type) (own_ag_args d))
       = (l1, Ok c) ∧
     layered ag_args_ensemble (dict_get AG_ARGS_ENSEMBLE d) merged ∧
     layered (cls_default_ag_args_ensemble (class_table c) problem_type)
       merged (dict_get AG_ARGS_ENSEMBLE cleaned) ∧
     layered ag_args_fit (dict_get AG_ARGS_FIT d) (dict_get AG_ARGS_FIT cleaned)) ∧
  (∀ own, update_items (VDict own) = mret own) ∧
  (∀ pairs : dict,
     update_items (VList ((λ kv, VList [of_key kv.1; kv.2]) <$> pairs))
     = mret pairs).
Proof.
  intros (l0 & d & l1 & c & merged & ? & ? & ? & ? & ? & _)%clean_model_cfg_layers.
  split_and!.
  - by exists l0, d, l1, c, merged.
  - done.
  - intros pairs. apply update_pairs_of_items.
Qed.

(** ** The two assertion errors about the model type *)

(** The variant's ag-args are absent or a mapping. *)
Definition ag_args_is_mapping (d : dict) : Prop :=
  match dict_get AG_ARGS d with
  | None | Some (VDict _) => True
  | Some _ => False
  end.

Lemma clean_model_cfg_model_type d model_type ag_args ag_args_ensemble
    ag_args_fit problem_type :
  ag_args_is_mapping d →
  let mt := dict_get_default (KStr "model_type") (of_key model_type)
              (own_ag_args d) in
  is_none mt = true ∨ (∃ e, resolve_model_type mt = ([], Err e)) →
  ∃ e, clean_model_cfg (VDict d) model_type ag_args ag_args_ensemble
         ag_args_fit problem_type = ([], Err e) ∧
       (is_none mt = true → ∃ cfg, e = AssertionError (ModelTypeNotSpecified cfg)) ∧
       (is_none mt = false → resolve_model_type mt = ([], Err e)).
Proof.
  intros Hmap mt Hmt. unfold clean_model_cfg, _verify_model_cfg.
  rewrite bind_ret. cbv zeta.
  set (cfg0 := if dict_mem AG_ARGS d then d else dict_set AG_ARGS (VDict []) d).
  assert (dict_get AG_ARGS cfg0 = Some (VDict (own_ag_args d))) as Hag.
  { unfold cfg0, own_ag_args, ag_args_is_mapping in *.
    destruct (dict_mem AG_ARGS d) eqn:Hmem.
    - apply dict_mem_true in Hmem as [v Hv]. rewrite Hv in *.
      by destruct v.
    - apply dict_mem_false in Hmem. by rewrite Hmem, dict_get_set_eq. }
  assert (dict_getitem AG_ARGS cfg0 ≫= as_dict = mret (own_ag_args d)) as ->.
  { unfold dict_getitem. rewrite Hag. unfold as_dict. by rewrite bind_ret. }
  rewrite bind_ret.
  assert (dict_get (KStr "model_type")
            (if dict_mem (KStr "model_type") (own_ag_args d) then own_ag_args d
             else dict_set (KStr "model_type") (of_key model_type) (own_ag_args d))
          = Some mt) as Hget.
  { unfold mt, dict_get_default.
    destruct (dict_mem (KStr "model_type") (own_ag_args d)) eqn:Hmem.
    - apply dict_mem_true in Hmem as [v Hv]. by rewrite Hv.
    - apply dict_mem_false in Hmem. by rewrite Hmem, dict_get_set_eq. }
  assert (dict_getitem (KStr "model_type")
            (if dict_mem (KStr "model_type") (own_ag_args d) then own_ag_args d
             else dict_set (KStr "model_type") (of_key model_type) (own_ag_args d))
          = mret mt) as ->.
  { unfold dict_getitem. by rewrite Hget. }
  rewrite bind_ret.
  destruct (is_none mt) eqn:Hnone.
  - eexists. split; [done|]. split; [eauto|done].
  - destruct Hmt as [?|[e He]]; [done|]. exists e. rewrite He.
    split; [done|]. by split.
Qed.

(** A variant mapping whose model type, its own [model_type] entry or else
    the key it is listed under, is [None] makes [clean_model_cfg] raise the
    assertion that no model type was specified (lines 175-176); one whose
    model type is a string that the registry does not know makes it raise
    the assertion about an unknown model type, with the registry's keys as
    the valid ones (lines 180-181).  In both cases nothing was logged. *)
Theorem model_type_errors (d : dict) (model_type : key)
    (ag_args ag_args_ensemble ag_args_fit : option dict) (problem_type : pyval) :
  ag_args_is_mapping d →
  let mt := dict_get_default (KStr "model_type") (of_key model_type)
              (own_ag_args d) in
  (mt = VNone →
   ∃ cfg, clean_model_cfg (VDict d) model_type ag_args ag_args_ensemble
            ag_args_fit problem_type
          = ([], Err (AssertionError (ModelTypeNotSpecified cfg)))) ∧
  (∀ s, mt = VStr s → dict_get (KStr s) key_to_cls_map = None →
        clean_model_cfg (VDict d) model_type ag_args ag_args_ensemble
          ag_args_fit problem_type
        = ([], Err (AssertionError
                      (UnknownModelType (VStr s) (dict_keys key_to_cls_map))))).
Proof.
  intros Hmap mt. split.
  - intros Hmt.
    destruct (clean_model_cfg_model_type d model_type ag_args ag_args_ensemble
                ag_args_fit problem_type Hmap)
      as (e & Hclean & Hnone & _).
    { left. fold mt. by rewrite Hmt. }
    fold mt in Hnone. rewrite Hmt in Hnone. destruct (Hnone eq_refl) as [cfg ->].
    by exists cfg.
  - intros s Hmt Hunknown.
    assert (resolve_model_type mt
            = ([], Err (AssertionError
                          (UnknownModelType (VStr s) (dict_keys key_to_cls_map)))))
      as Hresolve.
    { rewrite Hmt. unfold resolve_model_type. cbn [to_key]. by rewrite Hunknown. }
    destruct (clean_model_cfg_model_type d model_type ag_args ag_args_ensemble
                ag_args_fit problem_type Hmap)
      as (e & Hclean & _ & Hsome).
    { right. eauto. }
    fold mt in Hsome. rewrite Hmt in Hsome. cbn [is_none] in Hsome.
    specialize (Hsome eq_refl). rewrite <-Hmt, Hresolve in Hsome.
    injection Hsome as <-. done.
Qed.

(** ** Level selection in full *)

(** Line 110 never raises: the level's sub-mapping is the value under the
    level key, else the value under ["default"], else the whole mapping,
    and the last case also covers a mapping that has other level keys but
    neither the requested one nor ["default"]. *)
Theorem select_level_total (level : Z) (hyperparameters : dict) :
  select_level level hyperparameters
  = mret match dict_get (KInt level) hyperparameters with
         | Some v => v
         | None => match dict_get (KStr "default") hyperparameters with
                   | Some v => v
                   | None => VDict hyperparameters
                   end
         end.
Proof.
  unfold select_level. cbv zeta.
  destruct (dict_get (KInt level) hyperparameters) as [v|] eqn:Hlevel.
  - assert (dict_mem (KInt level) hyperparameters = true) as Hmem
      by (apply dict_mem_true; by rewrite Hlevel).
    rewrite !Hmem. cbn [negb andb]. unfold dict_getitem. by rewrite Hlevel.
  - assert (dict_mem (KInt level) hyperparameters = false) as Hmem
      by by apply dict_mem_false.
    rewrite Hmem.
    destruct (dict_get (KStr "default") hyperparameters) as [v|] eqn:Hdefault.
    + assert (dict_mem (KStr "default") hyperparameters = true) as Hmem'
        by (apply dict_mem_true; by rewrite Hdefault).
      rewrite !Hmem'. cbn [negb andb]. unfold dict_getitem. by rewrite Hdefault.
    + assert (dict_mem (KStr "default") hyperparameters = false) as Hmem'
        by by apply dict_mem_false.
      rewrite !Hmem'. by rewrite bool_decide_eq_true_2 by done.
Qed.

(** ** The auxiliary fit arguments *)

(** What the loop of lines 145-164 maintains about [model_args_fit]: each
    key is the name of a model built so far, and each value is a mapping
    with the single key [hyperparameter_tune_kwargs]. *)
Definition fit_args_inv (acc : list model * dict * gset string) : Prop :=
  ∀ k v, dict_get k acc.1.2 = Some v →
    (∃ m, m ∈ acc.1.1 ∧ k = KStr (name m)) ∧
    ∃ tune_kwargs, v = VDict [(KStr "hyperparameter_tune_kwargs", tune_kwargs)].

Lemma instantiate_fit_args kw problem_type eval_metric acc model_cfg l acc' :
  fit_args_inv acc →
  instantiate kw problem_type eval_metric acc model_cfg = (l, Ok acc') →
  fit_args_inv acc'.
Proof.
  destruct acc as [[models fit] used]. intros Hinv Hinst.
  unfold instantiate in Hinst.
  apply bind_Ok in Hinst as (? & m & ? & _ & Hinst & _).
  apply bind_Ok in Hinst as (? & ag & ? & _ & Hinst & _).
  apply bind_Ok in Hinst as (? & [] & ? & _ & Hinst & _).
  unfold mret, M_ret in Hinst. injection Hinst as _ <-.
  intros k v. cbn [fst snd].
  assert (∀ k v, dict_get k fit = Some v →
            (∃ m', m' ∈ models ++ [m] ∧ k = KStr (name m')) ∧
            ∃ tune_kwargs,
              v = VDict [(KStr "hyperparameter_tune_kwargs", tune_kwargs)])
    as Hold.
  { intros k' v' Hk'. destruct (Hinv k' v' Hk') as [(m' & ? & ?) ?].
    split; [|done]. exists m'. split; [|done]. apply elem_of_app. by left. }
  destruct (dict_get (KStr "hyperparameter_tune_kwargs") ag) as [tk|];
    [|by apply Hold].
  rewrite dict_get_set. destruct (decide (k = KStr (name m))) as [->|]; [|by apply Hold].
  intros [= <-]. split; [|by eexists].
  exists m. split; [|done]. apply elem_of_app. right. by left.
Qed.

(** Every key of the returned [model_args_fit] is the name of a returned
    model, and its value holds that model's [hyperparameter_tune_kwargs]
    and nothing else (lines 158-159). *)
Theorem model_args_fit_keys (problem_type eval_metric : pyval)
    (hyperparameters : dict) (invalid_model_names : option (list string))
    (kw : preset_kwargs) (l : list log_event) (models : list model)
    (model_args_fit : dict) :
  get_preset_models problem_type eval_metric hyperparameters
    invalid_model_names kw = (l, Ok (models, model_args_fit)) →
  ∀ k v, dict_get k model_args_fit = Some v →
    (∃ m, m ∈ models ∧ k = KStr (name m)) ∧
    ∃ tune_kwargs, v = VDict [(KStr "hyperparameter_tune_kwargs", tune_kwargs)].
Proof.
  intros (model_cfgs & l' & used & Hloop)%get_preset_models_instantiate.
  eapply (for_each_invariant fit_args_inv) in Hloop; [exact Hloop| |done].
  intros. by eapply instantiate_fit_args.
Qed.

(** ** The soft-classification entry point on its results *)

(** Whenever [get_preset_models_softclass] returns, the list of models is
    not empty, every model has [normalize_pred_probas = True], and the
    names are pairwise distinct and outside [invalid_model_names]. *)
Theorem softclass_models (hyperparameters : dict)
    (invalid_model_names : option (list string)) (kw : preset_kwargs)
    (l : list log_event) (models : list model) (model_args_fit : dict) :
  get_preset_models_softclass hyperparameters invalid_model_names kw
    = (l, Ok (models, model_args_fit)) →
  models ≠ [] ∧
  Forall (λ m, normalize_pred_probas m = Some true) models ∧
  NoDup (name <$> models) ∧
  ∀ m, m ∈ models → name m ∉ default [] invalid_model_names.
Proof.
  unfold get_preset_models_softclass. cbv zeta. intros Hrun.
  apply bind_Ok in Hrun as (? & hp & ? & _ & Hrun & _).
  apply bind_Ok in Hrun as (? & [ms fit] & ? & Hmodels & Hrun & _).
  case_bool_decide as Hlen; [done|].
  unfold mret, M_ret in Hrun. injection Hrun as _ <- <-.
  apply get_preset_models_instantiate in Hmodels as (cfgs & l' & used & Hloop).
  eapply (for_each_invariant
            (allocation_inv kw SOFTCLASS soft_log_loss
               (list_to_set (default [] invalid_model_names)))) in Hloop.
  2:{ intros. by eapply instantiate_inv. }
  2:{ split; simpl; [set_solver|]. intros i m Hi. by rewrite lookup_nil in Hi. }
  apply allocation_inv_unique in Hloop as [Hnodup Hexcl]. simpl in *.
  split_and!.
  - intros Hnil%fmap_nil_inv. by subst.
  - apply Forall_fmap, Forall_forall. by intros m _.
  - by rewrite <-list_fmap_compose.
  - intros m (m' & -> & Hm')%list_elem_of_fmap Hin.
    apply (Hexcl m' Hm'). by apply elem_of_list_to_set.
Qed.

(** ** The soft-classification entry point on its input *)

Lemma filter_filter_implies {B} (P Q : B → bool) (xs : list B) :
  (∀ x, P x = true → Q x = true) →
  List.filter P (List.filter Q xs) = List.filter P xs.
Proof.
  intros HPQ. induction xs as [|x xs IH]; [done|]. cbn [List.filter].
  destruct (Q x) eqn:HQ; cbn [List.filter].
  - by rewrite IH.
  - destruct (P x) eqn:HP; [|done]. apply HPQ in HP. congruence.
Qed.

(** The model types that [get_preset_models_softclass] reads. *)
Definition softclass_model_types : list key := KStr "RF" :: model_types_standard.

(** Entries of the hyperparameters under any other key than [GBM],
    [NN_TORCH], [CAT], [ENS_WEIGHTED] and [RF] play no part: removing them
    beforehand changes neither the result nor the log nor the exception of
    [get_preset_models_softclass]. *)
Theorem softclass_ignores_other_types (hyperparameters : dict)
    (invalid_model_names : option (list string)) (kw : preset_kwargs) :
  get_preset_models_softclass
    (List.filter (λ kv, bool_decide (kv.1 ∈ softclass_model_types)) hyperparameters)
    invalid_model_names kw
  = get_preset_models_softclass hyperparameters invalid_model_names kw.
Proof.
  unfold get_preset_models_softclass. cbv zeta.
  rewrite (filter_filter_implies
             (λ kv : key * pyval, bool_decide (kv.1 ∈ model_types_standard))
             (λ kv, bool_decide (kv.1 ∈ softclass_model_types))).
  2:{ intros [k v] Hk%bool_decide_eq_true. cbn [fst] in *.
      apply bool_decide_eq_true. by right. }
  rewrite (filter_filter_implies
             (λ kv : key * pyval, bool_decide (kv.1 = KStr "RF"))
             (λ kv, bool_decide (kv.1 ∈ softclass_model_types))).
  2:{ intros [k v] ->%bool_decide_eq_true. cbn [fst].
      apply bool_decide_eq_true. left. }
  done.
Qed.

(** Line 358. *)
Definition rf_newparams : dict :=
  [ (KStr "criterion", VStr "squared_error");
    (KStr "ag_args", VDict [(KStr "name_suffix", VStr "MSE")]) ].

Lemma update_all_variants (seen todo : list dict) :
  for_each (λ rf_params i, update_at rf_params rf_newparams i)
    (seq (length seen) (length todo)) (VList (VDict <$> (seen ++ todo)))
  = mret (VList (VDict <$> (seen
                  ++ ((λ d, dict_update d rf_newparams) <$> todo)))).
Proof.
  revert seen. induction todo as [|d todo IH]; intros seen; [done|].
  cbn [length seq for_each update_at].
  rewrite list_lookup_fmap, list_lookup_middle by done. cbn [fmap option_fmap option_map].
  rewrite bind_ret.
  replace (<[length seen:=VDict (dict_update d rf_newparams)]>
             (VDict <$> seen ++ d :: todo))
    with (VDict <$> ((seen ++ [dict_update d rf_newparams]) ++ todo)).
  - replace (S (length seen)) with (length (seen ++ [dict_update d rf_newparams]))
      by (rewrite length_app; simpl; lia).
    rewrite IH. by rewrite <-app_assoc.
  - rewrite <-app_assoc, !fmap_app, !fmap_cons.
    replace (length seen) with (length (VDict <$> seen) + 0)
      by (rewrite length_fmap; lia).
    by rewrite insert_app_r.
Qed.

Lemma drop_repeated_sublist l x : x ∈ drop_repeated l → x ∈ l.
Proof.
  induction l as [|j l IH]; [done|]. cbn [drop_repeated].
  destruct (existsb (py_eq j) l).
  - intros ?%IH. by right.
  - intros [->|?%IH]%elem_of_cons; [left|by right].
Qed.

Lemma drop_repeated_no_later_equal l l1 x l2 y :
  drop_repeated l = l1 ++ x :: l2 → y ∈ l2 → py_eq x y = false.
Proof.
  revert l1. induction l as [|j l IH]; intros l1; cbn [drop_repeated].
  - by destruct l1.
  - destruct (existsb (py_eq j) l) eqn:Hex; [by apply IH|].
    destruct l1 as [|j' l1]; cbn [app].
    + intros [= <- Hl2] Hy.
      assert (y ∈ l) as Hyl by (apply drop_repeated_sublist; by rewrite Hl2).
      destruct (py_eq j y) eqn:Heq; [|done].
      assert (existsb (py_eq j) l = true); [|congruence].
      apply existsb_exists. exists y. split; [|done]. by apply list_elem_of_In.
    + intros [= _ Hl]. by apply (IH l1).
Qed.

(** When the value under ["RF"] is a list of variant mappings, the random
    forest variants reach [get_preset_models] rewritten and then purged of
    repetitions (lines 356-362): each variant is updated with
    [criterion = "squared_error"] and [ag_args = {"name_suffix": "MSE"}],
    which replaces whatever ag-args it had and keeps its other keys; of
    variants that are then equal only the last stays.  The call then goes on
    as lines 363-378 say. *)
Theorem softclass_rf_rewrite (hyperparameters : dict)
    (invalid_model_names : option (list string)) (kw : preset_kwargs)
    (variants : list dict) :
  dict_get (KStr "RF") hyperparameters = Some (VList (VDict <$> variants)) →
  let rewritten := (λ d, VDict (dict_update d rf_newparams)) <$> variants in
  get_preset_models_softclass hyperparameters invalid_model_names kw
  = (get_preset_models SOFTCLASS soft_log_loss
       (dict_set (KStr "RF") (VList (drop_repeated rewritten))
          (List.filter (λ kv, bool_decide (kv.1 ∈ model_types_standard))
             hyperparameters))
       invalid_model_names kw
     ≫= λ '(models, model_args_fit),
          if bool_decide (length models = 0)
          then raise (ValueError softclass_no_models)
          else mret (set_normalize_pred_probas true <$> models, model_args_fit)) ∧
  (∀ d k, dict_get k (dict_update d rf_newparams)
          = if decide (k = KStr "criterion") then Some (VStr "squared_error")
            else if decide (k = KStr "ag_args")
                 then Some (VDict [(KStr "name_suffix", VStr "MSE")])
                 else dict_get k d) ∧
  (∀ l1 x l2 y, drop_repeated rewritten = l1 ++ x :: l2 → y ∈ l2 →
                py_eq x y = false).
Proof.
  intros Hrf rewritten. split_and!.
  - unfold get_preset_models_softclass. cbv zeta.
    rewrite dict_get_filter_key, Hrf. unfold py_len. rewrite bind_ret.
    rewrite length_fmap.
    pose proof (update_all_variants [] variants) as Hloop.
    cbn [length app] in Hloop. fold rf_newparams. rewrite Hloop, bind_ret.
    unfold remove_duplicates. rewrite bind_ret, bind_ret.
    unfold rewritten. by rewrite <-list_fmap_compose.
  - intros d k. rewrite dict_get_update. cbn [rf_newparams reverse rev_append dict_get].
    destruct (decide (k = KStr "ag_args")) as [->|];
      [by rewrite decide_False|].
    by destruct (decide (k = KStr "criterion")).
  - intros l1 x l2 y. apply drop_repeated_no_later_equal.
Qed.
(** ** What [model_factory] hands to the constructors *)

Lemma strip_prefix_Some prefix s t :
  strip_prefix prefix s = Some t ↔ s = prefix +:+ t.
Proof.
  revert s. induction prefix as [|a p IH]; intros s; cbn [strip_prefix].
  - split; [by intros [= ->]|by intros ->].
  - destruct s as [|b s].
    + split; [done|]. intros Hs. discriminate Hs.
    + destruct (decide (a = b)) as [->|Hne].
      * rewrite IH. split; [by intros ->|]. intros Hs. by injection Hs.
      * split; [done|]. intros Hs. injection Hs as -> _. done.
Qed.

Lemma dict_keys_pop_subseteq {V} k (d : list (key * V)) k' :
  k' ∈ dict_keys (dict_pop k d) → k' ∈ dict_keys d.
Proof.
  unfold dict_keys. induction d as [|[k'' v] d IH]; cbn [dict_pop]; [done|].
  destruct (decide (k = k'')) as [->|Hne]; cbn [fmap list_fmap fst].
  - intros. by right.
  - intros [->|Hin%IH]%elem_of_cons; [left|by right].
Qed.

Lemma NoDup_dict_pop {V} k (d : list (key * V)) :
  NoDup (dict_keys d) → NoDup (dict_keys (dict_pop k d)).
Proof.
  unfold dict_keys. induction d as [|[k' v] d IH]; cbn [dict_pop]; [done|].
  cbn [fmap list_fmap fst]. intros [Hnotin Hnodup]%NoDup_cons.
  destruct (decide (k = k')) as [->|Hne]; [done|].
  cbn [fmap list_fmap fst]. apply NoDup_cons. split; [|by apply IH].
  intros Hin. by apply (dict_keys_pop_subseteq k d k') in Hin.
Qed.

Lemma dict_get_pop_eq {V} k (d : list (key * V)) :
  NoDup (dict_keys d) → dict_get k (dict_pop k d) = None.
Proof.
  unfold dict_keys. induction d as [|[k' v] d IH]; cbn [dict_pop]; [done|].
  cbn [fmap list_fmap fst]. intros [Hnotin Hnodup]%NoDup_cons.
  destruct (decide (k = k')) as [->|Hne].
  - by apply dict_get_None.
  - cbn [dict_get]. destruct (decide (k = k')); [done|by apply IH].
Qed.

Lemma dict_get_pop {V} k k' (d : list (key * V)) :
  NoDup (dict_keys d) →
  dict_get k (dict_pop k' d) = if decide (k = k') then None else dict_get k d.
Proof.
  intros Hnodup. destruct (decide (k = k')) as [->|Hne].
  - by apply dict_get_pop_eq.
  - by apply dict_get_pop_ne.
Qed.

Lemma NoDup_dict_set {V} k (v : V) (d : list (key * V)) :
  NoDup (dict_keys d) → NoDup (dict_keys (dict_set k v d)).
Proof.
  intros Hnodup. rewrite dict_keys_set.
  destruct (dict_get k d) eqn:Hget; [done|].
  apply NoDup_app. split_and!; [done| |apply NoDup_singleton].
  intros k' Hin ->%list_elem_of_singleton.
  apply dict_get_None in Hget. done.
Qed.



(** The keys that lines 319-322 move to the ensemble hyperparameters. *)
Definition is_routed (k : key) : bool :=
  match k with
  | KStr s => bool_decide (is_Some (strip_prefix "ag.ens." s))
  | _ => false
  end.

(** The keys of a variant that never reach the hyperparameters of the
    model (lines 310-322). *)
Definition is_reserved (k : key) : bool :=
  bool_decide (k = AG_ARGS) || bool_decide (k = AG_ARGS_ENSEMBLE) || is_routed k.

Lemma is_routed_prefixed t : is_routed (KStr ("ag.ens." +:+ t)) = true.
Proof.
  unfold is_routed. apply bool_decide_eq_true. exists t.
  by apply strip_prefix_Some.
Qed.

(** The body of the loop of lines 319-322. *)
Definition route_step (st : dict * pyval) (key_ : key) : M (dict * pyval) :=
  let '(model_params, extra) := st in
  match key_ with
  | KStr s =>
      match strip_prefix "ag.ens." s with
      | Some key_suffix =>
          v ← dict_getitem key_ model_params;
          extra ← as_dict extra;
          mret (dict_pop key_ model_params,
                VDict (dict_set (KStr key_suffix) v extra))
      | None => mret (model_params, extra)
      end
  | _ => raise AttributeError
  end.

Lemma route_ensemble_keys_steps model_params extra :
  route_ensemble_keys model_params extra
  = for_each route_step (dict_keys model_params) (model_params, extra).
Proof.
  unfold route_ensemble_keys. apply for_each_ext. by intros [mp ex] k.
Qed.

Lemma route_loop ks mp0 ex0 l mp' ex' :
  NoDup ks → NoDup (dict_keys mp0) →
  for_each route_step ks (mp0, ex0) = (l, Ok (mp', ex')) →
  (∀ k, dict_get k mp'
        = if bool_decide (k ∈ ks) && is_routed k then None else dict_get k mp0) ∧
  (∀ e0, ex0 = VDict e0 →
     ∃ e', ex' = VDict e' ∧
       (NoDup (dict_keys e0) → NoDup (dict_keys e')) ∧
       ∀ k, dict_get k e'
            = match k with
              | KStr t =>
                  if bool_decide (KStr ("ag.ens." +:+ t) ∈ ks)
                  then dict_get (KStr ("ag.ens." +:+ t)) mp0
                  else dict_get k e0
              | _ => dict_get k e0
              end).
Proof.
  revert mp0 ex0 l. induction ks as [|x ks IH]; intros mp0 ex0 l Hks Hmp Hrun.
  - cbn [for_each] in Hrun. unfold mret, M_ret in Hrun.
    injection Hrun as _ <- <-. split.
    + intros k. by rewrite bool_decide_eq_false_2 by apply not_elem_of_nil.
    + intros e0 ->. exists e0. split_and!; [done..|].
      intros [| |t|]; try done;
        by rewrite bool_decide_eq_false_2 by apply not_elem_of_nil.
  - apply NoDup_cons in Hks as [Hx Hks]. cbn [for_each] in Hrun.
    apply bind_Ok in Hrun as (l1 & [mp1 ex1] & l2 & Hstep & Hrun & ->).
    unfold route_step in Hstep. destruct x as [| |s|]; try done.
    destruct (strip_prefix "ag.ens." s) as [tx|] eqn:Hstrip.
    + apply bind_Ok in Hstep as (? & v & ? & Hget & Hstep & _).
      apply bind_Ok in Hstep as (? & e1 & ? & Hex & Hstep & _).
      unfold mret, M_ret in Hstep. injection Hstep as _ <- <-.
      unfold dict_getitem in Hget.
      destruct (dict_get (KStr s) mp0) as [v'|] eqn:Hv; [|done].
      unfold mret, M_ret in Hget. injection Hget as _ ->.
      destruct ex0 as [| | | | |e0|]; try done.
      unfold as_dict, mret, M_ret in Hex. injection Hex as _ ->.
      apply strip_prefix_Some in Hstrip as Hs.
      destruct (IH _ _ _ Hks (NoDup_dict_pop (KStr s) mp0 Hmp) Hrun)
        as [Hparams Hextra].
      split.
      * intros k. rewrite Hparams, dict_get_pop by done.
        destruct (decide (k = KStr s)) as [->|Hne].
        -- rewrite (bool_decide_eq_true_2 (KStr s ∈ KStr s :: ks)) by left.
           rewrite Hs, is_routed_prefixed. cbn [andb].
           by destruct (bool_decide _ && _).
        -- destruct (is_routed k); [|by rewrite !andb_false_r].
           rewrite !andb_true_r.
           destruct (decide (k ∈ ks)) as [Hin|Hnotin].
           ++ rewrite !bool_decide_eq_true_2; [done|by right|done].
           ++ rewrite !bool_decide_eq_false_2; [done| |done].
              intros [?|?]%elem_of_cons; done.
      * intros e0' [= <-].
        destruct (Hextra _ eq_refl) as (e' & -> & Hnodup & Hlookup).
        exists e'. split_and!; [done| |].
        { intros He1. by apply Hnodup, NoDup_dict_set. }
        intros k. rewrite Hlookup. destruct k as [| |t|]; try done;
          try (rewrite dict_get_set_ne by done; done).
        destruct (decide (KStr ("ag.ens." +:+ t) = KStr s)) as [Heq|Hne].
        -- assert (t = tx) as ->.
           { injection Heq as Heq. rewrite Hs in Heq.
             by apply (inj (String.app _)) in Heq. }
           rewrite <-Hs.
           rewrite (bool_decide_eq_false_2 (KStr s ∈ ks)) by done.
           rewrite (bool_decide_eq_true_2 (KStr s ∈ KStr s :: ks)) by left.
           by rewrite dict_get_set_eq, Hv.
        -- rewrite dict_get_pop_ne by done.
           assert (t ≠ tx) as Ht by (intros ->; by rewrite Hs in Hne).
           rewrite dict_get_set_ne by congruence.
           destruct (decide (KStr ("ag.ens." +:+ t) ∈ ks)) as [Hin|Hnotin].
           ++ rewrite !bool_decide_eq_true_2; [done|by right|done].
           ++ rewrite !bool_decide_eq_false_2; [done| |done].
              intros [?|?]%elem_of_cons; done.
    + unfold mret, M_ret in Hstep. injection Hstep as _ <- <-.
      destruct (IH _ _ _ Hks Hmp Hrun) as [Hparams Hextra].
      assert (is_routed (KStr s) = false) as Hrouted.
      { unfold is_routed. rewrite Hstrip.
        apply bool_decide_eq_false. by intros [? ?]. }
      split.
      * intros k. rewrite Hparams.
        destruct (decide (k = KStr s)) as [->|Hne].
        -- by rewrite Hrouted, !andb_false_r.
        -- destruct (is_routed k); [|by rewrite !andb_false_r].
           rewrite !andb_true_r.
           destruct (decide (k ∈ ks)) as [Hin|Hnotin].
           ++ rewrite !bool_decide_eq_true_2; [done|by right|done].
           ++ rewrite !bool_decide_eq_false_2; [done| |done].
              intros [?|?]%elem_of_cons; done.
      * intros e0 ->.
        destruct (Hextra _ eq_refl) as (e' & -> & Hnodup & Hlookup).
        exists e'. split_and!; [done..|].
        intros k. rewrite Hlookup. destruct k as [| |t|]; try done.
        assert (KStr ("ag.ens." +:+ t) ≠ KStr s) as Hne.
        { intros [= <-]. by rewrite is_routed_prefixed in Hrouted. }
        destruct (decide (KStr ("ag.ens." +:+ t) ∈ ks)) as [Hin|Hnotin].
        -- rewrite !bool_decide_eq_true_2; [done|by right|done].
        -- rewrite !bool_decide_eq_false_2; [done| |done].
           intros [?|?]%elem_of_cons; done.
Qed.

(** Lines 319-322 on a mapping: the prefixed keys leave the model's
    parameters, and each lands in the ensemble hyperparameters under its
    suffix, over whatever was stored there. *)
Lemma route_ensemble_keys_spec mp extra l mp' extra' :
  NoDup (dict_keys mp) →
  route_ensemble_keys mp extra = (l, Ok (mp', extra')) →
  (∀ k, dict_get k mp' = if is_routed k then None else dict_get k mp) ∧
  (∀ e0, extra = VDict e0 →
     ∃ e', extra' = VDict e' ∧
       (NoDup (dict_keys e0) → NoDup (dict_keys e')) ∧
       ∀ t, dict_get (KStr t) e'
            = match dict_get (KStr ("ag.ens." +:+ t)) mp with
              | Some v => Some v
              | None => dict_get (KStr t) e0
              end).
Proof.
  intros Hmp Hrun. rewrite route_ensemble_keys_steps in Hrun.
  destruct (route_loop _ _ _ _ _ _ Hmp Hmp Hrun) as [Hparams Hextra]. split.
  - intros k. rewrite Hparams. destruct (is_routed k); [|by rewrite andb_false_r].
    rewrite andb_true_r. case_bool_decide as Hin; [done|].
    by apply dict_get_None.
  - intros e0 ->. destruct (Hextra _ eq_refl) as (e' & -> & Hnodup & Hlookup).
    exists e'. split_and!; [done..|]. intros t. rewrite Hlookup.
    case_bool_decide as Hin.
    + destruct (dict_get (KStr ("ag.ens." +:+ t)) mp) eqn:Hget; [done|].
      by apply dict_get_None in Hget.
    + apply dict_get_None in Hin. by rewrite Hin.
Qed.

Lemma model_params_lookup (model_ : dict) k :
  NoDup (dict_keys model_) →
  dict_get k (dict_pop AG_ARGS_ENSEMBLE (dict_pop AG_ARGS model_))
  = if bool_decide (k = AG_ARGS) || bool_decide (k = AG_ARGS_ENSEMBLE)
    then None else dict_get k model_.
Proof.
  intros Hnodup.
  rewrite dict_get_pop by by apply NoDup_dict_pop.
  rewrite dict_get_pop by done.
  destruct (decide (k = AG_ARGS_ENSEMBLE)) as [->|Hne].
  - by rewrite orb_true_r.
  - rewrite (bool_decide_eq_false_2 (k = AG_ARGS_ENSEMBLE)), orb_false_r by done.
    by destruct (decide (k = AG_ARGS)) as [->|?];
      [rewrite bool_decide_eq_true_2|rewrite bool_decide_eq_false_2].
Qed.

(** Without ensemble arguments the model is built from the class that
    [model_type] resolves to, and the hyperparameters it receives are the
    variant's entries other than [ag_args], [ag_args_ensemble] and the keys
    that start with ["ag.ens."], unchanged (lines 310-323 and 340). *)
Theorem reserved_keys_withheld (model_ : dict) (path problem_type eval_metric : pyval)
    (name_suffix : option string) (ensemble_type : nat)
    (invalid_name_set : gset string) (level : Z) (l : list log_event) (m : model) :
  NoDup (dict_keys model_) →
  model_factory model_ path problem_type eval_metric name_suffix ensemble_type
    None invalid_name_set level = (l, Ok m) →
  ∃ params,
    dict_get (KStr "hyperparameters") (init_kwargs m) = Some (VDict params) ∧
    ∀ k, dict_get k params = if is_reserved k then None else dict_get k model_.
Proof.
  intros Hnodup Hmf. unfold model_factory in Hmf.
  apply bind_Ok in Hmf as (? & ag & ? & _ & Hmf & _).
  apply bind_Ok in Hmf as (? & mt & ? & _ & Hmf & _).
  apply bind_Ok in Hmf as (? & c & ? & _ & Hmf & _).
  apply bind_Ok in Hmf as (? & name_orig & ? & _ & Hmf & _).
  apply bind_Ok in Hmf as (? & [name_ name_stacker] & ? & _ & Hmf & _).
  apply bind_Ok in Hmf as (? & [model_params extra] & ? & Hroute & Hmf & _).
  unfold mret, M_ret in Hmf. injection Hmf as _ <-. cbn [init_kwargs].
  exists model_params. split; [done|].
  apply route_ensemble_keys_spec in Hroute as [Hparams _];
    [|by do 2 apply NoDup_dict_pop].
  intros k. rewrite Hparams, model_params_lookup by done. unfold is_reserved.
  destruct (is_routed k); [by rewrite orb_true_r|by rewrite orb_false_r].
Qed.




End more_properties.

(** * The further properties on explicit inputs *)

Lemma unknown_key_only_warns_witness :
  is_model_cfg_valid
    [(KStr "ag_args", VDict [(KStr "model_type", VCls 0); (KStr "colour", VInt 1)])]
    1 BINARY
  = ([Warning_unknown_ag_args_key (KStr "colour")], Ok true).
Proof.
  apply (unknown_key_only_warns
           [(KStr "ag_args", VDict [(KStr "model_type", VCls 0)])]
           [(KStr "model_type", VCls 0)] (KStr "colour") (VInt 1) 1 BINARY []
           (Ok true)).
  - intros Hin. repeat (apply elem_of_cons in Hin as [[=]|Hin]).
    by apply elem_of_nil in Hin.
  - reflexivity.
  - reflexivity.
  - reflexivity.
Defined.

(** A LightGBM variant with hyperparameters of its own and reserved
    sub-mappings, cleaned against global ensemble and fit arguments. *)
Definition example_full_variant : pyval :=
  VDict [(KStr "num_leaves", VInt 31);
         (KStr "ag_args_fit", VDict [(KStr "num_gpus", VInt 1)]);
         (KStr "ag_args_ensemble", VDict [(KStr "use_child_oof", VBool false)])].

Definition example_global_ag_args_ensemble : dict :=
  [(KStr "fold_fitting_strategy", VStr "sequential_local");
   (KStr "use_child_oof", VBool true)].

Definition example_global_ag_args_fit : dict :=
  [(KStr "num_gpus", VInt 0); (KStr "num_cpus", VInt 4)].

Definition example_cleaned : dict :=
  Eval vm_compute in
    match (@clean_model_cfg (example_registry "1.2.0") example_full_variant
             (KStr "RF") None (Some example_global_ag_args_ensemble)
             (Some example_global_ag_args_fit) BINARY).2 with
    | Ok cleaned => cleaned
    | Err _ => []
    end.

Lemma example_clean_run :
  @clean_model_cfg (example_registry "1.2.0") example_full_variant
    (KStr "RF") None (Some example_global_ag_args_ensemble)
    (Some example_global_ag_args_fit) BINARY
  = ([], Ok example_cleaned).
Proof. vm_compute. reflexivity. Qed.

Lemma hyperparameters_untouched_witness :
  dict_get (KStr "num_leaves") example_cleaned = Some (VInt 31).
Proof.
  destruct (@hyperparameters_untouched (example_registry "1.2.0")
              example_full_variant (KStr "RF") None
              (Some example_global_ag_args_ensemble)
              (Some example_global_ag_args_fit) BINARY [] example_cleaned
              example_clean_run)
    as (l0 & d & Hverify & Hkeep).
  injection Hverify as _ <-. by rewrite Hkeep.
Defined.

(** A LightGBM variant whose ensemble arguments are given as a list of
    key/value pairs, which [dict.update] accepts. *)
Definition example_pairs_variant : pyval :=
  VDict [(KStr "ag_args_ensemble", VList [VList [VStr "e"; VInt 1]])].

Definition example_pairs_cleaned : dict :=
  Eval vm_compute in
    match (@clean_model_cfg (example_registry "1.2.0") example_pairs_variant
             (KStr "GBM") None None None BINARY).2 with
    | Ok cleaned => cleaned
    | Err _ => []
    end.

Lemma example_pairs_clean_run :
  @clean_model_cfg (example_registry "1.2.0") example_pairs_variant
    (KStr "GBM") None None None BINARY
  = ([], Ok example_pairs_cleaned).
Proof. vm_compute. reflexivity. Qed.

Lemma ensemble_and_fit_layers_witness :
  dict_get AG_ARGS_ENSEMBLE example_cleaned
  = Some (VDict [(KStr "use_child_oof", VBool false);
                 (KStr "fold_fitting_strategy", VStr "sequential_local")]) ∧
  dict_get AG_ARGS_FIT example_cleaned
  = Some (VDict [(KStr "num_gpus", VInt 1); (KStr "num_cpus", VInt 4)]) ∧
  dict_get AG_ARGS_ENSEMBLE example_pairs_cleaned
  = Some (VDict [(KStr "e", VInt 1)]).
Proof.
  destruct (proj1 (@ensemble_and_fit_layers (example_registry "1.2.0")
                     example_full_variant (KStr "RF") None
                     (Some example_global_ag_args_ensemble)
                     (Some example_global_ag_args_fit) BINARY [] example_cleaned
                     example_clean_run))
    as (l0 & d & l1 & c & merged & Hverify & Hresolve & Hens & Hdflt & Hfit).
  injection Hverify as _ <-. vm_compute in Hresolve.
  injection Hresolve as _ <-.
  destruct Hens as (own & Hown & ->). injection Hown as <-.
  destruct Hdflt as (own' & Hown' & Hdflt). injection Hown' as <-.
  destruct Hfit as (own'' & Hown'' & Hfit). injection Hown'' as <-.
  destruct (proj1 (@ensemble_and_fit_layers (example_registry "1.2.0")
                     example_pairs_variant (KStr "GBM") None None None BINARY []
                     example_pairs_cleaned example_pairs_clean_run))
    as (l0' & d' & l1' & c' & merged & Hverify & Hresolve & Hens & Hpairs & _).
  injection Hverify as _ <-. vm_compute in Hresolve.
  injection Hresolve as _ <-. cbn [layered] in Hens. subst merged.
  destruct Hpairs as (own & Hown & Hpairs). injection Hown as <-.
  split_and!; [exact Hdflt|exact Hfit|exact Hpairs].
Defined.

Lemma model_type_errors_witness :
  (∃ cfg, @clean_model_cfg (example_registry "1.2.0") (VDict []) KNone
            None None None BINARY
          = ([], Err (AssertionError (ModelTypeNotSpecified cfg)))) ∧
  @clean_model_cfg (example_registry "1.2.0") (VDict []) (KStr "XGB")
    None None None BINARY
  = ([], Err (AssertionError
                (UnknownModelType (VStr "XGB")
                   [KStr "GBM"; KStr "RF"; KStr "LAYERED"]))).
Proof.
  split.
  - apply (proj1 (@model_type_errors (example_registry "1.2.0") [] KNone
                    None None None BINARY I)).
    reflexivity.
  - apply (proj2 (@model_type_errors (example_registry "1.2.0") [] (KStr "XGB")
                    None None None BINARY I) "XGB"); reflexivity.
Defined.

(** One run with a searched variant: a LightGBM whose ag-args carry
    [hyperparameter_tune_kwargs], next to a plain random forest. *)
Definition example_hpo_hyperparameters : dict :=
  [(KStr "GBM",
    VList [VDict [(KStr "ag_args",
                   VDict [(KStr "hyperparameter_tune_kwargs", VStr "auto")])]]);
   (KStr "RF", VList [VDict []])].

Definition example_hpo_models : list model :=
  Eval vm_compute in
    match (@get_preset_models (example_registry "1.2.0") BINARY VNone
             example_hpo_hyperparameters None example_kwargs).2 with
    | Ok (models, _) => models
    | Err _ => []
    end.

Definition example_hpo_fit_args : dict :=
  [(KStr "LightGBM", VDict [(KStr "hyperparameter_tune_kwargs", VStr "auto")])].

Lemma example_hpo_run :
  @get_preset_models (example_registry "1.2.0") BINARY VNone
    example_hpo_hyperparameters None example_kwargs
  = ([], Ok (example_hpo_models, example_hpo_fit_args)).
Proof. vm_compute. reflexivity. Qed.

Lemma model_args_fit_keys_witness :
  (∃ m, m ∈ example_hpo_models ∧ KStr "LightGBM" = KStr (name m)) ∧
  ∃ tune_kwargs,
    VDict [(KStr "hyperparameter_tune_kwargs", VStr "auto")]
    = VDict [(KStr "hyperparameter_tune_kwargs", tune_kwargs)].
Proof.
  exact (@model_args_fit_keys (example_registry "1.2.0") BINARY VNone
           example_hpo_hyperparameters None example_kwargs []
           example_hpo_models example_hpo_fit_args example_hpo_run
           (KStr "LightGBM") _ eq_refl).
Defined.

(** One soft-classification run: a LightGBM and two random forest variants
    that differ in a hyperparameter. *)
Definition example_softclass_hyperparameters : dict :=
  [(KStr "GBM", VList [VDict []]);
   (KStr "RF", VList [VDict [(KStr "criterion", VStr "gini")];
                      VDict [(KStr "max_depth", VInt 15)]]);
   (KStr "KNN", VList [VDict []])].

Definition example_softclass_models : list model :=
  Eval vm_compute in
    match (@get_preset_models_softclass (example_registry "1.2.0")
             example_softclass_hyperparameters (Some ["LightGBM"])
             example_kwargs).2 with
    | Ok (models, _) => models
    | Err _ => []
    end.

Lemma example_softclass_run :
  @get_preset_models_softclass (example_registry "1.2.0")
    example_softclass_hyperparameters (Some ["LightGBM"]) example_kwargs
  = ([], Ok (example_softclass_models, [])).
Proof. vm_compute. reflexivity. Qed.

Lemma example_softclass_models_names :
  name <$> example_softclass_models
  = ["LightGBM_2"; "RandomForestMSE"; "RandomForestMSE_2"].
Proof. reflexivity. Qed.

Lemma softclass_models_witness :
  example_softclass_models ≠ [] ∧
  Forall (λ m, normalize_pred_probas m = Some true) example_softclass_models ∧
  NoDup (name <$> example_softclass_models) ∧
  ∀ m, m ∈ example_softclass_models → name m ∉ ["LightGBM"].
Proof.
  exact (@softclass_models (example_registry "1.2.0")
           example_softclass_hyperparameters (Some ["LightGBM"]) example_kwargs
           [] example_softclass_models [] example_softclass_run).
Defined.

Lemma softclass_rf_rewrite_witness :
  @get_preset_models_softclass (example_registry "1.2.0")
    [(KStr "RF", VList [VDict [(KStr "criterion", VStr "gini")];
                        VDict [(KStr "criterion", VStr "entropy")]])]
    None example_kwargs
  = @get_preset_models_softclass (example_registry "1.2.0")
      [(KStr "RF", VList [VDict [(KStr "criterion", VStr "squared_error");
                                 (KStr "ag_args",
                                  VDict [(KStr "name_suffix", VStr "MSE")])]])]
      None example_kwargs.
Proof.
  rewrite (proj1 (@softclass_rf_rewrite (example_registry "1.2.0")
                    [(KStr "RF", VList [VDict [(KStr "criterion", VStr "gini")];
                                        VDict [(KStr "criterion", VStr "entropy")]])]
                    None example_kwargs
                    [[(KStr "criterion", VStr "gini")];
                     [(KStr "criterion", VStr "entropy")]] eq_refl)).
  reflexivity.
Defined.

(** A cleaned LightGBM variant with a hyperparameter of its own, ensemble
    arguments and a prefixed ensemble key. *)
Definition example_model_cfg : dict :=
  [(KStr "ag_args", VDict [(KStr "model_type", VCls 0)]);
   (KStr "num_leaves", VInt 31);
   (KStr "ag_args_ensemble",
    VDict [(KStr "fold_fitting_strategy", VStr "parallel_local");
           (KStr "use_child_oof", VBool true)]);
   (KStr "ag.ens.fold_fitting_strategy", VStr "sequential_local")].

Lemma example_model_cfg_keys : NoDup (dict_keys example_model_cfg).
Proof.
  unfold dict_keys. cbn [example_model_cfg fmap list_fmap fst].
  repeat (apply NoDup_cons; split;
          [intros Hin; repeat (apply elem_of_cons in Hin as [[=]|Hin]);
           by apply elem_of_nil in Hin|]).
  apply NoDup_nil_2.
Qed.

Definition example_plain_model : model :=
  Eval vm_compute in
    match (@model_factory (example_registry "1.2.0") example_model_cfg
             (VStr "models/") BINARY VNone None 3 None ∅ 1).2 with
    | Ok m => m
    | Err _ => {| model_cls := 0; name := ""; init_kwargs := [];
                  normalize_pred_probas := None |}
    end.

Lemma example_plain_run :
  @model_factory (example_registry "1.2.0") example_model_cfg
    (VStr "models/") BINARY VNone None 3 None ∅ 1
  = ([], Ok example_plain_model).
Proof. vm_compute. reflexivity. Qed.

Lemma reserved_keys_withheld_witness :
  ∃ params,
    dict_get (KStr "hyperparameters") (init_kwargs example_plain_model)
    = Some (VDict params) ∧
    dict_get (KStr "num_leaves") params = Some (VInt 31) ∧
    dict_get (KStr "ag_args") params = None ∧
    dict_get (KStr "ag_args_ensemble") params = None ∧
    dict_get (KStr "ag.ens.fold_fitting_strategy") params = None.
Proof.
  destruct (@reserved_keys_withheld (example_registry "1.2.0") example_model_cfg
              (VStr "models/") BINARY VNone None 3 ∅ 1 [] example_plain_model
              example_model_cfg_keys example_plain_run)
    as (params & Hhp & Hparams).
  exists params. split; [exact Hhp|]. rewrite !Hparams. by split_and!.
Defined.




